(** * trm-sla: the Python/C interface to the SLA astrometry routines

    A shallow embedding of [src/trm/sla/sla.cc].  The file wraps four
    entry points of the extension module [_sla]:

    - [sla_dtt]      (TT-UTC in seconds),
    - [sla_cldj]     (Gregorian calendar date to MJD),
    - [sla_utc2tdb]  (light-travel-time corrected time scales),
    - [sla_amass]    (airmass, altitude, azimuth, hour angle,
                      parallactic angle, refraction).

    Numbers.  A C [double] is modelled by a rational number of [Q] with
    exact arithmetic: every finite double is a rational, the comparisons
    of the source are the comparisons of [Q], and rounding, infinities
    and NaN are left out.  A C [int] is an integer of [Z].

    Arguments.  The arguments of a wrapper are the list of values that
    [PyArg_ParseTuple] converts: doubles for the format [d], Python
    integers for the format [i].  The count of the arguments and the
    range of a C [int] are tested as [PyArg_ParseTuple] tests them; an
    argument that [d] cannot convert to a double (not a number, or an
    integer too large) is outside the model.

    The SLALIB routines and [tan] are not part of this repository.  Each
    call of one of them is an event of type [extcall]; a wrapper is a
    finite program [prog] over these events, and a [handler] supplies the
    answers of the library.  *)

From Stdlib Require Import QArith ZArith String List Bool Lia Lqa.
From Stdlib Require Import DecimalString.
From ExtLib Require Import Structures.Monad.
Import ListNotations MonadNotation.
Local Open Scope Q_scope.
Local Open Scope monad_scope.

(** ** Doubles *)

Module Double.

(** [x < y] on doubles. *)
Definition ltb (x y : Q) : bool :=
  (Qnum x * QDen y <? Qnum y * QDen x)%Z.

(** [x <= y] on doubles. *)
Definition leb (x y : Q) : bool := Qle_bool x y.

(** The conversion of a C++ [bool] to [double] in a mixed comparison. *)
Definition of_bool (b : bool) : Q := if b then 1 else 0.

(** [int(x)]: truncation toward zero.  C++ defines the conversion
    when the truncated value fits an [int]; the properties that depend
    on the value of [int(x)] assume that it does. *)
Definition to_int (x : Q) : Z := Z.quot (Qnum x) (Zpos (Qden x)).

Definition of_int (n : Z) : Q := inject_Z n.

End Double.

Declare Scope double_scope.
Delimit Scope double_scope with double.
Notation "x <? y" := (Double.ltb x y) : double_scope.
Notation "x >? y" := (Double.ltb y x) (only parsing) : double_scope.
Notation "x <=? y" := (Double.leb x y) : double_scope.
Local Open Scope double_scope.

(** ** Constants ([trm_constants.h])

    The header is not under [src/]; the wrappers read five constants of
    its namespace [Constants], taken here as a parameter. *)

Record Constants : Type := {
  PI    : Q;   (* pi *)
  TWOPI : Q;   (* 2 pi *)
  C     : Q;   (* speed of light, m/s *)
  AU    : Q;   (* astronomical unit, m *)
  DAY   : Q    (* seconds in a day *)
}.

(** The customary values: the double nearest to pi, its double, the
    defined speed of light, the astronomical unit and 86400 s. *)
Definition trm_constants : Constants := {|
  PI    := 884279719003555 # 281474976710656;
  TWOPI := 884279719003555 # 140737488355328;
  C     := 299792458;
  AU    := 149597870691;
  DAY   := 86400
|}.

(** ** Three-vectors ([trm_vec3.h]) *)

(** Modelled from the spec: [trm_vec3.h] ([Subs::Vec3]) is not under
    [src/]; the spec describes the primitives as 3-vectors with
    addition, scalar scale and dot product. *)
Record Vec3 : Type := mkVec3 { vx : Q; vy : Q; vz : Q }.

Module Vec3Ops.

(** Modelled from the spec: the addition [a += b] of [Subs::Vec3]. *)
Definition add (a b : Vec3) : Vec3 :=
  mkVec3 (vx a + vx b) (vy a + vy b) (vz a + vz b).

(** Modelled from the spec: the scalar scale [a *= s] of [Subs::Vec3]. *)
Definition scale (a : Vec3) (s : Q) : Vec3 :=
  mkVec3 (vx a * s) (vy a * s) (vz a * s).

(** Modelled from the spec: the dot product [dot(a, b)] of
    [Subs::Vec3]. *)
Definition dot (a b : Vec3) : Q :=
  vx a * vx b + vy a * vy b + vz a * vz b.

End Vec3Ops.

(** A [double[3][3]] rotation matrix, by rows. *)
Definition Mat3 : Type := (Vec3 * Vec3 * Vec3)%type.

(** ** Python results *)

(** The exception set when a wrapper returns [NULL]. *)
Inductive PyErr : Type :=
| TypeError                     (* PyArg_ParseTuple: wrong arity *)
| OverflowError                 (* PyArg_ParseTuple: int out of range *)
| ValueError (msg : string).    (* PyErr_SetString(PyExc_ValueError, msg) *)

Inductive PyResult (A : Type) : Type :=
| Ok (a : A)
| Err (e : PyErr).
Arguments Ok {A} a.
Arguments Err {A} e.

Definition is_err {A} (r : PyResult A) : bool :=
  match r with Ok _ => false | Err _ => true end.

(** ** Calls of the external library *)

(** One constructor per routine of SLALIB (and of libm) the wrappers
    call; the index is the type of what the routine hands back (its
    return value or its output arguments). *)
Inductive extcall : Type -> Type :=
| SlaDtt (utc : Q) : extcall Q
| SlaCldj (iy im id : Z) : extcall (Q * Z)             (* djm, status *)
| SlaGeoc (p h : Q) : extcall (Q * Q)                  (* r, z *)
| SlaRcc (tdb ut1 wl u v : Q) : extcall Q
| SlaEpv (date : Q) : extcall (Vec3 * Vec3 * Vec3 * Vec3) (* ph vh pb vb *)
| SlaGmst (ut1 : Q) : extcall Q
| SlaEqeqx (date : Q) : extcall Q
| SlaPvobs (p h stl : Q) : extcall (Vec3 * Vec3)       (* pv[0..2], pv[3..5] *)
| SlaPneqx (date : Q) : extcall Mat3
| SlaDimxv (dm : Mat3) (va : Vec3) : extcall Vec3
| SlaEpj (date : Q) : extcall Q
| SlaPm (r0 d0 pr pd px rv ep0 ep1 : Q) : extcall (Q * Q)  (* r1, d1 *)
| SlaDcs2c (a b : Q) : extcall Vec3
| SlaI2o (ri di date dut elongm phim hm xp yp tdk pmb rh wl tlr : Q)
    : extcall (Q * Q * Q * Q * Q)                      (* aob zob hob dob rob *)
| SlaRefcoq (tdk pmb rh wl : Q) : extcall (Q * Q)      (* refa, refb *)
| SlaAirmas (zd : Q) : extcall Q
| SlaPa (ha dec phi : Q) : extcall Q
| Tan (x : Q) : extcall Q.

(** A call together with the answer it got, for traces. *)
Inductive event : Type :=
| Ev {X : Type} (c : extcall X) (x : X).

(** A wrapper: a finite tree of library calls ending in a value. *)
Inductive prog (A : Type) : Type :=
| Ret (a : A)
| Call {X : Type} (c : extcall X) (k : X -> prog A).
Arguments Ret {A} a.
Arguments Call {A X} c k.

Fixpoint pbind {A B : Type} (p : prog A) (f : A -> prog B) : prog B :=
  match p with
  | Ret a => f a
  | Call c k => Call c (fun x => pbind (k x) f)
  end.

(** The behaviour of the library: an answer for every call. *)
Definition handler : Type := forall X : Type, extcall X -> X.

(** The value a program ends in when the library behaves as [h]. *)
Fixpoint run {A : Type} (h : handler) (p : prog A) : A :=
  match p with
  | Ret a => a
  | Call c k => run h (k (h _ c))
  end.

(** The library calls a program makes, in order, with their answers. *)
Fixpoint trace {A : Type} (h : handler) (p : prog A) : list event :=
  match p with
  | Ret _ => []
  | Call c k => Ev c (h _ c) :: trace h (k (h _ c))
  end.

(** A Python C function: library calls, then a value or an exception. *)
Definition py (A : Type) : Type := prog (PyResult A).

#[export] Instance Monad_py : Monad py := {|
  ret := fun A (a : A) => Ret (Ok a);
  bind := fun A B (p : py A) (f : A -> py B) =>
    pbind p (fun r => match r with Ok a => f a | Err e => Ret (Err e) end)
|}.

(** [PyErr_SetString(...); return NULL;] *)
Definition raise {A : Type} (e : PyErr) : py A := Ret (Err e).

(** A call of the library. *)
Definition call {X : Type} (c : extcall X) : py X :=
  Call c (fun x => Ret (Ok x)).

(** [if (bad) { PyErr_SetString(PyExc_ValueError, msg); return NULL; }] *)
Definition reject_if (bad : bool) (msg : string) : py unit :=
  if bad then raise (ValueError msg) else ret tt.

(** ** The wrappers *)

(** Modelled from the spec: [Subs::str(int)] is not under [src/]; it
    renders the offending field of a date, here in decimal. *)
Definition str (n : Z) : string := NilZero.string_of_int (Z.to_int n).

(** The range of a C [int], checked by the [i] format of
    [PyArg_ParseTuple]. *)
Definition fits_int (n : Z) : bool :=
  ((-2147483648 <=? n) && (n <=? 2147483647))%Z.

(** The tuple [sla_utc2tdb] returns. *)
Record utc2tdb_result : Type := {
  tt : Q; tdb : Q; btdb : Q; hutc : Q; htdb : Q; vhel : Q; vbar : Q
}.

(** The tuple [sla_amass] returns. *)
Record amass_result : Type := {
  airmass : Q; altob : Q; azob : Q; haob : Q; paob : Q; delz : Q
}.

(** [sla_dtt]: format ["d"]. *)
Definition sla_dtt (args : list Q) : py Q :=
  match args with
  | [utc] =>
      d <- call (SlaDtt utc) ;;
      ret d
  | _ => raise TypeError
  end.

(** [sla_cldj]: format ["iii"]. *)
Definition sla_cldj (args : list Z) : py Q :=
  match args with
  | [year; month; day] =>
      if negb (fits_int year && fits_int month && fits_int day)
      then raise OverflowError
      else
        '(mjd, status) <- call (SlaCldj year month day) ;;
        if (status =? 1)%Z then
          raise (ValueError ("sla.cldj: bad year = " ++ str year))
        else if (status =? 2)%Z then
          raise (ValueError ("sla.cldj: bad month = " ++ str month))
        else if (status =? 3)%Z then
          raise (ValueError ("sla.cldj: bad day = " ++ str day))
        else ret mjd
  | _ => raise TypeError
  end.

Section Wrappers.

Variable K : Constants.

(** [sla_utc2tdb]: format ["dddddd|ddddd"], the arguments
    [utc, longitude, latitude, height, ra, dec] and the optional
    [pmra, pmdec, epoch, parallax, rv]. *)
Definition sla_utc2tdb (args : list Q) : py utc2tdb_result :=
  match args with
  | utc :: longitude :: latitude :: height :: ra :: dec :: opt =>
    if (5 <? length opt)%nat then raise TypeError else
    let pmra     := nth 0 opt 0 in
    let pmdec    := nth 1 opt 0 in
    let epoch    := nth 2 opt 2000 in
    let parallax := nth 3 opt 0 in
    let rv       := nth 4 opt 0 in
    (* Some checks on the inputs *)
    reject_if ((longitude <? -360) || (longitude >? 360))
      "sla.utc2tdb: longituge out of range -360 to +360" ;;
    reject_if ((latitude <? -90) || (latitude >? 90))
      "sla.utc2tdb: latitude out of range -90 to +90" ;;
    reject_if ((ra <? 0) || (ra >? 24))
      "sla.utc2tdb: ra out of range 0 to 24" ;;
    reject_if ((dec <? -90) || (dec >? 90))
      "sla.utc2tdb: declination out of range -90 to +90" ;;
    (* convert angles to those expected by sla routines *)
    let CFAC   := PI K / 180 in
    let latr   := CFAC * latitude in
    let longr  := CFAC * longitude in
    let rar    := CFAC * 15 * ra in
    let decr   := CFAC * dec in
    let pmrar  := CFAC * pmra / 3600 in
    let pmdecr := CFAC * pmdec / 3600 in
    '(u, v) <- call (SlaGeoc latr height) ;;
    let u := u * (AU K / 1000) in
    let v := v * (AU K / 1000) in
    dtt <- call (SlaDtt utc) ;;
    let tt := utc + dtt / DAY K in
    rcc <- call (SlaRcc tt (utc - Double.of_int (Double.to_int utc))
                   (- longr) u v) ;;
    let tdb := tt + rcc / DAY K in
    (* position of Earth relative to the centre of the Sun and the
       barycentre *)
    '(ph, vh, pb, vb) <- call (SlaEpv tdb) ;;
    let hpos := ph in
    let bpos := pb in
    let hvel := vh in
    let bvel := vb in
    (* correction from centre of Earth to observatory;
       [slaGmst(tdb) + longr + slaEqeqx(tdb)], operands left to right *)
    gmst <- call (SlaGmst tdb) ;;
    eqeqx <- call (SlaEqeqx tdb) ;;
    let last := gmst + longr + eqeqx in
    '(pv0, pv3) <- call (SlaPvobs latr height last) ;;
    (* correct for precession/nutation *)
    rnpb <- call (SlaPneqx tdb) ;;
    pv0 <- call (SlaDimxv rnpb pv0) ;;
    pv3 <- call (SlaDimxv rnpb pv3) ;;
    let padd := pv0 in
    let vadd := pv3 in
    (* heliocentric *)
    let hpos := Vec3Ops.add hpos padd in
    let hvel := Vec3Ops.add hvel vadd in
    let hpos := Vec3Ops.scale hpos (AU K) in
    let hvel := Vec3Ops.scale hvel (AU K / DAY K) in
    (* barycentric *)
    let bpos := Vec3Ops.add bpos padd in
    let bvel := Vec3Ops.add bvel vadd in
    let bpos := Vec3Ops.scale bpos (AU K) in
    let bvel := Vec3Ops.scale bvel (AU K / DAY K) in
    (* update the target position using space motion data *)
    nepoch <- call (SlaEpj utc) ;;
    '(rar, decr) <-
      call (SlaPm rar decr pmrar pmdecr parallax rv epoch nepoch) ;;
    (* position vector of target *)
    targ <- call (SlaDcs2c rar decr) ;;
    (* the helio- and barycentrically corrected times *)
    let hcorr := Vec3Ops.dot targ hpos / C K / DAY K in
    let bcorr := Vec3Ops.dot targ bpos / C K / DAY K in
    let btdb := tdb + bcorr in
    let htdb := tdb + hcorr in
    let hutc := utc + hcorr in
    (* and the radial velocities *)
    let vhel := - Vec3Ops.dot targ hvel / 1000 in
    let vbar := - Vec3Ops.dot targ bvel / 1000 in
    ret {| tt := tt; tdb := tdb; btdb := btdb; hutc := hutc;
           htdb := htdb; vhel := vhel; vbar := vbar |}
  | _ => raise TypeError
  end.

(** [sla_amass]: format ["dddddd|dddddd"], the arguments
    [utc, longitude, latitude, height, ra, dec] and the optional
    [wave, pmra, pmdec, epoch, parallax, rv]. *)
Definition sla_amass (args : list Q) : py amass_result :=
  match args with
  | utc :: longitude :: latitude :: height :: ra :: dec :: opt =>
    if (6 <? length opt)%nat then raise TypeError else
    let wave     := nth 0 opt 0.55 in
    let pmra     := nth 1 opt 0 in
    let pmdec    := nth 2 opt 0 in
    let epoch    := nth 3 opt 2000 in
    let parallax := nth 4 opt 0 in
    let rv       := nth 5 opt 0 in
    (* Some checks on the inputs *)
    reject_if ((longitude <? -360) || (longitude >? 360))
      "sla.amass: longituge out of range -360 to +360" ;;
    reject_if ((latitude <? -90) || (latitude >? 90))
      "sla.amass: latitude out of range -90 to +90" ;;
    reject_if ((ra <? 0) || (ra >? 24))
      "sla.amass: ra out of range 0 to 24" ;;
    reject_if ((dec <? -90) || (dec >? 90))
      "sla.amass: declination out of range -90 to +90" ;;
    (* [dec > wave > 1000000.] is [(dec > wave) > 1000000.] *)
    reject_if ((wave <=? 0) || (Double.of_bool (dec >? wave) >? 1000000))
      "sla.amass: declination out of range -90 to +90" ;;
    (* convert angles to those expected by sla routines *)
    let CFAC   := PI K / 180 in
    let latr   := CFAC * latitude in
    let longr  := CFAC * longitude in
    let rar    := CFAC * 15 * ra in
    let decr   := CFAC * dec in
    let pmrar  := CFAC * pmra / 3600 in
    let pmdecr := CFAC * pmdec / 3600 in
    (* correct for space motion *)
    nepoch <- call (SlaEpj utc) ;;
    '(rar, decr) <-
      call (SlaPm rar decr pmrar pmdecr parallax rv epoch nepoch) ;;
    (* first three small corrections factors are assumed zero *)
    let DUT := 0 in         (* UT1-UTC, seconds *)
    let XP  := 0 in         (* polar motion, radians *)
    let YP  := 0 in         (* polar motion, radians *)
    let T   := 285 in       (* ambient temperature K *)
    let P   := 1013.25 in   (* ambient pressure, mbar *)
    let RH  := 0.2 in       (* relative humidity (0-1) *)
    let TLR := 0.0065 in    (* lapse rate, K/metre *)
    (* observed azimuth, zenith distance, hour angle, declination, ra *)
    '(azob, zdob, haob, decob, raob) <-
      call (SlaI2o rar decr utc DUT longr latr height XP YP
              T P RH wave TLR) ;;
    (* compute refraction *)
    '(refa, refb) <- call (SlaRefcoq T P RH wave) ;;
    tanz <- call (Tan zdob) ;;
    let delz := tanz * (refa + refb * tanz * tanz) / CFAC in
    (* convert units *)
    let haob := haob * (24 / TWOPI K) in
    let altob := 90 - zdob / CFAC in
    airmass <- call (SlaAirmas zdob) ;;
    let azob := azob / CFAC in
    (* Compute pa *)
    pa <- call (SlaPa haob decr latr) ;;
    let paob := pa / CFAC in
    let paob := if paob >? 0 then paob else 360 + paob in
    ret {| airmass := airmass; altob := altob; azob := azob;
           haob := haob; paob := paob; delz := delz |}
  | _ => raise TypeError
  end.

End Wrappers.

(** ** The calendar routine of the library *)

Module Calendar.

(** Modelled from the spec: the supported minimum of the year, 4800
    BCE, which is the astronomical year -4799. *)
Definition min_year : Z := -4799.

(** Modelled from the spec: the leap years of the Gregorian calendar. *)
Definition leap_year (y : Z) : bool :=
  ((y mod 4 =? 0) && (negb (y mod 100 =? 0) || (y mod 400 =? 0)))%Z.

(** Modelled from the spec: the days of month [m] in year [y]. *)
Definition month_length (y m : Z) : Z :=
  if (m =? 2)%Z then (if leap_year y then 29 else 28)%Z
  else if ((m =? 4) || (m =? 6) || (m =? 9) || (m =? 11))%Z then 30%Z
  else 31%Z.

(** Modelled from the spec: the days from the MJD origin to a date of
    the proleptic Gregorian calendar (51544 on 1 January 2000). *)
Definition mjd_of_date (y m d : Z) : Z :=
  (let a := Z.quot (12 - m) 10 in
   Z.quot (1461 * (y - a + 4712)) 4
   + Z.quot (306 * Z.rem (m + 9) 12 + 5) 10
   - Z.quot (3 * Z.quot (y - a + 4900) 100) 4
   + d - 2399904)%Z.

(** Modelled from the spec: [slaCldj] (SLALIB, [slalib.h]) is not
    under [src/].  The spec has the calendar converter use the
    proleptic Gregorian calendar and fail on a bad year (below the
    supported minimum), a bad month (not 1-12) or a bad day (not valid
    for that year and month, accounting for leap years); the status
    numbers 1, 2 and 3 are those [sla_cldj] tests. *)
Definition slaCldj (iy im id : Z) : Q * Z :=
  if (iy <? min_year)%Z then (0, 1%Z)
  else if ((im <? 1) || (12 <? im))%Z then (0, 2%Z)
  else
    let djm := inject_Z (mjd_of_date iy im id) in
    if ((id <? 1) || (month_length iy im <? id))%Z then (djm, 3%Z)
    else (djm, 0%Z).

End Calendar.

(** ** Library behaviours used to run the wrappers *)

Definition zero3 : Vec3 := mkVec3 0 0 0.

(** A library that answers every call with fixed values: an object at
    the zenith ([zob = 0]) with parallactic angle [0], no proper motion
    and epoch 2000. *)
Definition quiet : handler := fun X c =>
  match c in extcall X return X with
  | SlaDtt _ => 64.184
  | SlaCldj _ _ _ => (0, 0%Z)
  | SlaGeoc _ _ => (0, 0)
  | SlaRcc _ _ _ _ _ => 0
  | SlaEpv _ => (zero3, zero3, zero3, zero3)
  | SlaGmst _ => 0
  | SlaEqeqx _ => 0
  | SlaPvobs _ _ _ => (zero3, zero3)
  | SlaPneqx _ => (mkVec3 1 0 0, mkVec3 0 1 0, mkVec3 0 0 1)
  | SlaDimxv _ v => v
  | SlaEpj _ => 2000
  | SlaPm r0 d0 _ _ _ _ _ _ => (r0, d0)
  | SlaDcs2c _ _ => mkVec3 1 0 0
  | SlaI2o _ _ _ _ _ _ _ _ _ _ _ _ _ _ => (0, 0, 0, 0, 0)
  | SlaRefcoq _ _ _ _ => (0, 0)
  | SlaAirmas _ => 1
  | SlaPa _ _ _ => 0
  | Tan _ => 0
  end.

(** [h], with the calendar routine of [Calendar]. *)
Definition with_slaCldj (h : handler) : handler := fun X c =>
  match c in extcall X return X with
  | SlaCldj iy im id => Calendar.slaCldj iy im id
  | c' => h _ c'
  end.

(** [h], with the hour angle [hob] observed by [slaI2o] and with a
    [slaPa] that answers [f ha]. *)
Definition with_hour_angle (h : handler) (hob : Q) (f : Q -> Q) : handler :=
  fun X c =>
  match c in extcall X return X with
  | SlaI2o _ _ _ _ _ _ _ _ _ _ _ _ _ _ => (0, 0, hob, 0, 0)
  | SlaPa ha _ _ => f ha
  | c' => h _ c'
  end.

(** The first six arguments of an observation of Sirius from La Palma. *)
Definition sirius (ra : Q) : list Q := [51544; 0; 28.76; 2396; ra; -16.72].

(** ** The inputs the wrappers accept *)

(** The four angles inside the closed ranges both wrappers test. *)
Definition angles_valid (lon lat ra dec : Q) : Prop :=
  (-360 <= lon /\ lon <= 360) /\ (-90 <= lat /\ lat <= 90) /\
  (0 <= ra /\ ra <= 24) /\ (-90 <= dec /\ dec <= 90).

(** The inputs [sla_utc2tdb] lets through: at most five optional
    arguments and the four angles in range. *)
Definition utc2tdb_valid (lon lat ra dec : Q) (opt : list Q) : Prop :=
  (length opt <= 5)%nat /\ angles_valid lon lat ra dec.

(** The inputs [sla_amass] lets through: at most six optional
    arguments, the four angles in range and a positive wavelength
    ([0.55] when it is not given). *)
Definition amass_valid (lon lat ra dec : Q) (opt : list Q) : Prop :=
  (length opt <= 6)%nat /\ angles_valid lon lat ra dec /\
  0 < nth 0 opt 0.55.

(** The inputs one of the tests of [sla_utc2tdb] turns down, as the
    source has them: the right ascension is tested against the closed
    [0, 24]. *)
Definition utc2tdb_invalid (args : list Q) : Prop :=
  match args with
  | _ :: lon :: lat :: _ :: ra :: dec :: opt =>
      (5 < length opt)%nat \/
      (lon < -360 \/ 360 < lon) \/ (lat < -90 \/ 90 < lat) \/
      (ra < 0 \/ 24 < ra) \/ (dec < -90 \/ 90 < dec)
  | _ => True
  end.

(** The inputs one of the tests of [sla_amass] turns down, as the
    source has them: the right ascension is tested against the closed
    [0, 24] and the wavelength only against 0. *)
Definition amass_invalid (args : list Q) : Prop :=
  match args with
  | _ :: lon :: lat :: _ :: ra :: dec :: opt =>
      (6 < length opt)%nat \/
      (lon < -360 \/ 360 < lon) \/ (lat < -90 \/ 90 < lat) \/
      (ra < 0 \/ 24 < ra) \/ (dec < -90 \/ 90 < dec) \/
      nth 0 opt 0.55 <= 0
  | _ => True
  end.

(** The optional arguments of [sla_amass] with the defaults filled in:
    [wave, pmra, pmdec, epoch, parallax, rv]. *)
Definition amass_optional (opt : list Q) : list Q :=
  [nth 0 opt 0.55; nth 1 opt 0; nth 2 opt 0;
   nth 3 opt 2000; nth 4 opt 0; nth 5 opt 0].

(** The conditions under which [sla_amass] has the library work: no
    UT1-UTC, no polar motion, 285 K, 1013.25 mbar, relative humidity
    0.2 and a lapse rate of 0.0065 K/m. *)
Definition standard_conditions (e : event) : Prop :=
  match e with
  | Ev c _ =>
      match c with
      | SlaI2o _ _ _ dut _ _ _ xp yp tdk pmb rh _ tlr =>
          dut = 0 /\ xp = 0 /\ yp = 0 /\
          tdk = 285 /\ pmb = 1013.25 /\ rh = 0.2 /\ tlr = 0.0065
      | SlaRefcoq tdk pmb rh _ =>
          tdk = 285 /\ pmb = 1013.25 /\ rh = 0.2
      | _ => True
      end
  end.

(** ** The ranges of the spec *)

(** The inputs the ranges of the spec turn down for [time_correct]: a
    longitude outside [-360, 360], a latitude outside [-90, 90], a
    right ascension outside the half-open [0, 24) or a declination
    outside [-90, 90]. *)
Definition spec_utc2tdb_invalid (args : list Q) : Prop :=
  match args with
  | _ :: lon :: lat :: _ :: ra :: dec :: _ =>
      (lon < -360 \/ 360 < lon) \/ (lat < -90 \/ 90 < lat) \/
      (ra < 0 \/ 24 <= ra) \/ (dec < -90 \/ 90 < dec)
  | _ => False
  end.

(** The inputs the ranges of the spec turn down for [observed_place]:
    those of [time_correct], and a wavelength that is not above 0 or is
    above the ceiling of [10^6] microns. *)
Definition spec_amass_invalid (args : list Q) : Prop :=
  match args with
  | _ :: lon :: lat :: _ :: ra :: dec :: opt =>
      (lon < -360 \/ 360 < lon) \/ (lat < -90 \/ 90 < lat) \/
      (ra < 0 \/ 24 <= ra) \/ (dec < -90 \/ 90 < dec) \/
      (nth 0 opt 0.55 <= 0 \/ 1000000 < nth 0 opt 0.55)
  | _ => False
  end.

(** ** Further vocabulary for the properties of the wrappers *)

(** The optional arguments of [sla_utc2tdb] with the defaults filled
    in: [pmra, pmdec, epoch, parallax, rv]. *)
Definition utc2tdb_optional (opt : list Q) : list Q :=
  [nth 0 opt 0; nth 1 opt 0; nth 2 opt 2000; nth 3 opt 0; nth 4 opt 0].

(** An event whose answer is the one the library [h] gives. *)
Definition answered_by (h : handler) (e : event) : Prop :=
  match e with
  | Ev c x => x = h _ c
  end.

(** An event that, when it is a call of [slaEpv], [slaGmst],
    [slaEqeqx] or [slaPneqx], has [t] as its date. *)
Definition dated (t : Q) (e : event) : Prop :=
  match e with
  | Ev c _ =>
      match c with
      | SlaEpv date => date = t
      | SlaGmst ut1 => ut1 = t
      | SlaEqeqx date => date = t
      | SlaPneqx date => date = t
      | _ => True
      end
  end.

(** [h], with the observed declination and right ascension that
    [slaI2o] hands back replaced by [dob] and [rob]. *)
Definition with_observed_place (h : handler) (dob rob : Q) : handler :=
  fun X c =>
  match c in extcall X return X with
  | SlaI2o ri di date dut elongm phim hm xp yp tdk pmb rh wl tlr =>
      let '(aob, zob, hob, _, _) :=
        h _ (SlaI2o ri di date dut elongm phim hm xp yp tdk pmb rh wl tlr) in
      (aob, zob, hob, dob, rob)
  | c' => h _ c'
  end.

(** * Properties *)

(** ** Comparisons of doubles *)

Lemma double_ltb_iff (x y : Q) : (x <? y) = true <-> x < y.
Proof. unfold Double.ltb, Qlt. apply Z.ltb_lt. Qed.

Lemma double_ltb_false_iff (x y : Q) : (x <? y) = false <-> y <= x.
Proof. unfold Double.ltb, Qle. rewrite Z.ltb_ge. reflexivity. Qed.

Lemma double_leb_iff (x y : Q) : (x <=? y) = true <-> x <= y.
Proof. apply Qle_bool_iff. Qed.

Lemma double_leb_false_iff (x y : Q) : (x <=? y) = false <-> y < x.
Proof.
  unfold Double.leb, Qle_bool, Qlt. rewrite Z.leb_gt. reflexivity.
Qed.

(** A range test of the wrappers fires exactly outside the closed
    interval. *)
Lemma out_of_range_iff (lo hi x : Q) :
  (x <? lo) || (x >? hi) = true <-> x < lo \/ hi < x.
Proof. rewrite orb_true_iff, !double_ltb_iff. reflexivity. Qed.

Lemma in_range_iff (lo hi x : Q) :
  (x <? lo) || (x >? hi) = false <-> lo <= x /\ x <= hi.
Proof. rewrite orb_false_iff, !double_ltb_false_iff. reflexivity. Qed.

(** The malformed second half of the wavelength test never fires. *)
Lemma chained_comparison_false (dec wave : Q) :
  (Double.of_bool (dec >? wave) >? 1000000) = false.
Proof. destruct (dec >? wave); reflexivity. Qed.

Lemma wave_test_iff (dec wave : Q) :
  (wave <=? 0) || (Double.of_bool (dec >? wave) >? 1000000) = true
  <-> wave <= 0.
Proof.
  rewrite chained_comparison_false, orb_false_r. apply double_leb_iff.
Qed.

(** ** Programs *)

Lemma bind_reject_if {A} (b : bool) (msg : string) (k : py A) :
  (reject_if b msg ;; k) = if b then raise (ValueError msg) else k.
Proof. destruct b; reflexivity. Qed.

(** Case analysis on the next range test of a wrapper. *)
Ltac next_check :=
  match goal with
  | |- context [if ?b then raise ?e else _] =>
      let E := fresh "Echeck" in destruct b eqn:E
  end.

(** Name the answer of the library to the next call. *)
Ltac next_answer h :=
  match goal with
  | |- context [match h ?X ?c with _ => _ end] =>
      let E := fresh "Eans" in destruct (h X c) eqn:E
  | |- context [match ?v with _ => _ end] => is_var v; destruct v
  end.

Ltac exec h :=
  cbn [run trace pbind bind ret Monad_py call raise];
  repeat (next_answer h;
          cbn [run trace pbind bind ret Monad_py call raise]).

(** Either a wrapper raises at once, before any call of the library,
    or it runs to a value whatever the library answers. *)
Lemma amass_raises_or_returns K args :
  (exists e, sla_amass K args = raise e) \/
  (forall h, is_err (run h (sla_amass K args)) = false).
Proof.
  unfold sla_amass.
  destruct args as [|utc [|lon [|lat [|hgt [|ra [|dec opt]]]]]];
    try (left; eexists; reflexivity).
  destruct (6 <? length opt)%nat; [left; eexists; reflexivity|].
  rewrite !bind_reject_if.
  repeat (next_check; [left; eexists; reflexivity|]).
  right. intros h. exec h. reflexivity.
Qed.

Lemma utc2tdb_raises_or_returns K args :
  (exists e, sla_utc2tdb K args = raise e) \/
  (forall h, is_err (run h (sla_utc2tdb K args)) = false).
Proof.
  unfold sla_utc2tdb.
  destruct args as [|utc [|lon [|lat [|hgt [|ra [|dec opt]]]]]];
    try (left; eexists; reflexivity).
  destruct (5 <? length opt)%nat; [left; eexists; reflexivity|].
  rewrite !bind_reject_if.
  repeat (next_check; [left; eexists; reflexivity|]).
  right. intros h. exec h. reflexivity.
Qed.

(** ** Symbolic execution of the wrappers on accepted input *)

Ltac pass_checks :=
  rewrite !bind_reject_if;
  repeat match goal with
  | H : ?lo <= ?x /\ ?x <= ?hi |- _ =>
      rewrite (proj2 (in_range_iff lo hi x) H); clear H
  end.

(** What [sla_amass] calls and returns on accepted input. *)
Lemma amass_valid_run K h utc lon lat hgt ra dec opt :
  amass_valid lon lat ra dec opt ->
  let CFAC := PI K / 180 in
  let wave := nth 0 opt 0.55 in
  exists nepoch r1 d1 aob zob hob dob rob refa refb tanz am pa,
    trace h (sla_amass K (utc :: lon :: lat :: hgt :: ra :: dec :: opt)) =
      [ Ev (SlaEpj utc) nepoch;
        Ev (SlaPm (CFAC * 15 * ra) (CFAC * dec)
              (CFAC * nth 1 opt 0 / 3600) (CFAC * nth 2 opt 0 / 3600)
              (nth 4 opt 0) (nth 5 opt 0) (nth 3 opt 2000) nepoch) (r1, d1);
        Ev (SlaI2o r1 d1 utc 0 (CFAC * lon) (CFAC * lat) hgt 0 0
              285 1013.25 0.2 wave 0.0065) (aob, zob, hob, dob, rob);
        Ev (SlaRefcoq 285 1013.25 0.2 wave) (refa, refb);
        Ev (Tan zob) tanz;
        Ev (SlaAirmas zob) am;
        Ev (SlaPa (hob * (24 / TWOPI K)) d1 (CFAC * lat)) pa ] /\
    run h (sla_amass K (utc :: lon :: lat :: hgt :: ra :: dec :: opt)) =
      Ok {| airmass := am;
            altob := 90 - zob / CFAC;
            azob := aob / CFAC;
            haob := hob * (24 / TWOPI K);
            paob := if pa / CFAC >? 0 then pa / CFAC else 360 + pa / CFAC;
            delz := tanz * (refa + refb * tanz * tanz) / CFAC |}.
Proof.
  intros (Hlen & (Hlon & Hlat & Hra & Hdec) & Hwave) CFAC wave.
  subst CFAC wave. unfold sla_amass.
  apply Nat.leb_le in Hlen. rewrite Nat.leb_antisym in Hlen.
  apply negb_true_iff in Hlen. rewrite Hlen.
  pass_checks.
  rewrite chained_comparison_false, orb_false_r.
  rewrite (proj2 (double_leb_false_iff _ _) Hwave).
  exec h. repeat eexists.
Qed.

(** What [sla_utc2tdb] calls and returns on accepted input. *)
Lemma utc2tdb_valid_run K h utc lon lat hgt ra dec opt :
  utc2tdb_valid lon lat ra dec opt ->
  let CFAC := PI K / 180 in
  exists u v dtt rcc ph vh pb vb gmst eqeqx pv0 pv3 rnpb padd vadd
         nepoch r1 d1 targ,
    let tt' := utc + dtt / DAY K in
    let tdb' := tt' + rcc / DAY K in
    let hpos := Vec3Ops.scale (Vec3Ops.add ph padd) (AU K) in
    let bpos := Vec3Ops.scale (Vec3Ops.add pb padd) (AU K) in
    let hvel := Vec3Ops.scale (Vec3Ops.add vh vadd) (AU K / DAY K) in
    let bvel := Vec3Ops.scale (Vec3Ops.add vb vadd) (AU K / DAY K) in
    let hcorr := Vec3Ops.dot targ hpos / C K / DAY K in
    let bcorr := Vec3Ops.dot targ bpos / C K / DAY K in
    trace h (sla_utc2tdb K (utc :: lon :: lat :: hgt :: ra :: dec :: opt)) =
      [ Ev (SlaGeoc (CFAC * lat) hgt) (u, v);
        Ev (SlaDtt utc) dtt;
        Ev (SlaRcc tt' (utc - Double.of_int (Double.to_int utc))
              (- (CFAC * lon)) (u * (AU K / 1000)) (v * (AU K / 1000))) rcc;
        Ev (SlaEpv tdb') (ph, vh, pb, vb);
        Ev (SlaGmst tdb') gmst;
        Ev (SlaEqeqx tdb') eqeqx;
        Ev (SlaPvobs (CFAC * lat) hgt (gmst + CFAC * lon + eqeqx)) (pv0, pv3);
        Ev (SlaPneqx tdb') rnpb;
        Ev (SlaDimxv rnpb pv0) padd;
        Ev (SlaDimxv rnpb pv3) vadd;
        Ev (SlaEpj utc) nepoch;
        Ev (SlaPm (CFAC * 15 * ra) (CFAC * dec)
              (CFAC * nth 0 opt 0 / 3600) (CFAC * nth 1 opt 0 / 3600)
              (nth 3 opt 0) (nth 4 opt 0) (nth 2 opt 2000) nepoch) (r1, d1);
        Ev (SlaDcs2c r1 d1) targ ] /\
    run h (sla_utc2tdb K (utc :: lon :: lat :: hgt :: ra :: dec :: opt)) =
      Ok {| tt := tt'; tdb := tdb';
            btdb := tdb' + bcorr; hutc := utc + hcorr; htdb := tdb' + hcorr;
            vhel := - Vec3Ops.dot targ hvel / 1000;
            vbar := - Vec3Ops.dot targ bvel / 1000 |}.
Proof.
  intros (Hlen & Hlon & Hlat & Hra & Hdec) CFAC.
  subst CFAC. unfold sla_utc2tdb.
  apply Nat.leb_le in Hlen. rewrite Nat.leb_antisym in Hlen.
  apply negb_true_iff in Hlen. rewrite Hlen.
  pass_checks.
  exec h. repeat eexists.
Qed.

(** ** Rejected input *)

Ltac checks_to_props :=
  repeat match goal with
  | H : (_ <? _) || (_ <? _) = false |- _ => apply in_range_iff in H
  | H : (_ <=? _) || (_ <? Double.of_bool _) = false |- _ =>
      rewrite chained_comparison_false, orb_false_r in H;
      apply double_leb_false_iff in H
  | H : (_ <? _)%nat = false |- _ => apply Nat.ltb_ge in H
  end.

Lemma utc2tdb_invalid_raises K args :
  utc2tdb_invalid args -> exists e, sla_utc2tdb K args = raise e.
Proof.
  intros Hinv.
  destruct (utc2tdb_raises_or_returns K args) as [He | Hok]; [exact He|].
  exfalso. revert Hok. unfold sla_utc2tdb.
  destruct args as [|utc [|lon [|lat [|hgt [|ra [|dec opt]]]]]];
    try (intros Hok; specialize (Hok quiet); discriminate).
  cbn [utc2tdb_invalid] in Hinv.
  destruct (5 <? length opt)%nat eqn:Elen;
    [intros Hok; specialize (Hok quiet); discriminate|].
  rewrite !bind_reject_if.
  repeat (next_check; [intros Hok; specialize (Hok quiet); discriminate|]).
  intros _. checks_to_props.
  destruct Hinv as [H|[H|[H|[H|H]]]]; try lia; destruct H; lra.
Qed.

Lemma amass_invalid_raises K args :
  amass_invalid args -> exists e, sla_amass K args = raise e.
Proof.
  intros Hinv.
  destruct (amass_raises_or_returns K args) as [He | Hok]; [exact He|].
  exfalso. revert Hok. unfold sla_amass.
  destruct args as [|utc [|lon [|lat [|hgt [|ra [|dec opt]]]]]];
    try (intros Hok; specialize (Hok quiet); discriminate).
  cbn [amass_invalid] in Hinv.
  destruct (6 <? length opt)%nat eqn:Elen;
    [intros Hok; specialize (Hok quiet); discriminate|].
  rewrite !bind_reject_if.
  repeat (next_check; [intros Hok; specialize (Hok quiet); discriminate|]).
  intros _. checks_to_props.
  destruct Hinv as [H|[H|[H|[H|[H|H]]]]]; try lia; try lra; destruct H; lra.
Qed.

(** A run that ends in an exception made no call of the library. *)
Lemma amass_error_no_call K h args :
  is_err (run h (sla_amass K args)) = true ->
  sla_amass K args = Ret (run h (sla_amass K args)) /\
  trace h (sla_amass K args) = [].
Proof.
  intros Herr.
  destruct (amass_raises_or_returns K args) as [[e He] | Hok].
  - rewrite He. split; reflexivity.
  - rewrite Hok in Herr. discriminate.
Qed.

Lemma utc2tdb_error_no_call K h args :
  is_err (run h (sla_utc2tdb K args)) = true ->
  sla_utc2tdb K args = Ret (run h (sla_utc2tdb K args)) /\
  trace h (sla_utc2tdb K args) = [].
Proof.
  intros Herr.
  destruct (utc2tdb_raises_or_returns K args) as [[e He] | Hok].
  - rewrite He. split; reflexivity.
  - rewrite Hok in Herr. discriminate.
Qed.

(** ** Range validation *)

Ltac pass_arity Hlen :=
  apply Nat.leb_le in Hlen; rewrite Nat.leb_antisym in Hlen;
  apply negb_true_iff in Hlen; rewrite Hlen.

(** C1.  The wavelength test of [sla_amass] has no upper bound and
    names the wrong field: with the other arguments in range, a
    wavelength [wave <= 0] raises the [ValueError] whose message is the
    one of the declination test, and every [wave > 0], the wavelengths
    above [10^6] microns included, is let through. *)
Theorem sla_amass_wavelength_check K h utc lon lat hgt ra dec wave rest :
  (length rest <= 5)%nat -> angles_valid lon lat ra dec ->
  let args := utc :: lon :: lat :: hgt :: ra :: dec :: wave :: rest in
  (wave <= 0 ->
   sla_amass K args =
     raise (ValueError "sla.amass: declination out of range -90 to +90")) /\
  (0 < wave -> is_err (run h (sla_amass K args)) = false) /\
  (1000000 < wave -> is_err (run h (sla_amass K args)) = false).
Proof.
  intros Hlen Hang args.
  assert (Hpos : 0 < wave -> is_err (run h (sla_amass K args)) = false).
  { intros Hwave.
    destruct (amass_valid_run K h utc lon lat hgt ra dec (wave :: rest))
      as (? & ? & ? & ? & ? & ? & ? & ? & ? & ? & ? & ? & ? & _ & Hrun).
    - repeat split; try apply Hang; [cbn; lia | exact Hwave].
    - subst args. rewrite Hrun. reflexivity. }
  split; [|split].
  - intros Hwave. subst args. unfold sla_amass.
    assert (Hlen' : (length (wave :: rest) <= 6)%nat) by (cbn; lia).
    destruct Hang as (Hlon & Hlat & Hra & Hdec).
    pass_arity Hlen'. rewrite !bind_reject_if.
    rewrite (proj2 (in_range_iff _ _ _) Hlon), (proj2 (in_range_iff _ _ _) Hlat),
      (proj2 (in_range_iff _ _ _) Hra), (proj2 (in_range_iff _ _ _) Hdec).
    cbn [nth]. rewrite (proj2 (wave_test_iff dec wave) Hwave). reflexivity.
  - exact Hpos.
  - intros Hwave. apply Hpos. lra.
Qed.

(** The failing input of C1: a wavelength of two million microns. *)
Lemma sla_amass_wavelength_check_witness :
  (length (@nil Q) <= 5)%nat /\ angles_valid 0 28.76 6.75 (-16.72) /\
  1000000 < 2000000 /\
  is_err (run quiet (sla_amass trm_constants (sirius 6.75 ++ [2000000])))
    = false.
Proof.
  assert (Hlen : (length (@nil Q) <= 5)%nat) by (cbn; lia).
  assert (Hang : angles_valid 0 28.76 6.75 (-16.72))
    by (unfold angles_valid; repeat split; lra).
  assert (Hw : 1000000 < 2000000) by lra.
  split; [exact Hlen | split; [exact Hang | split; [exact Hw |]]].
  exact (proj2 (proj2 (sla_amass_wavelength_check trm_constants quiet
     51544 0 28.76 2396 6.75 (-16.72) 2000000 [] Hlen Hang)) Hw).
Defined.

(** C4 as stated fails: a right ascension of 24 hours passes both
    wrappers. *)
Lemma ra_24_is_accepted :
  is_err (run quiet (sla_utc2tdb trm_constants (sirius 24))) = false /\
  is_err (run quiet (sla_amass trm_constants (sirius 24))) = false.
Proof. split; vm_compute; reflexivity. Qed.

(** C4, amended.  Both wrappers raise for every right ascension below
    0 or above 24 hours, with the message of the right-ascension test
    when longitude and latitude are in range; every right ascension of
    the closed interval from 0 to 24, 24 included, passes that test. *)
Theorem ra_check_closed_interval K h utc lon lat hgt ra dec opt :
  let args := utc :: lon :: lat :: hgt :: ra :: dec :: opt in
  (ra < 0 \/ 24 < ra ->
   is_err (run h (sla_utc2tdb K args)) = true /\
   is_err (run h (sla_amass K args)) = true) /\
  (ra < 0 \/ 24 < ra ->
   (length opt <= 5)%nat ->
   -360 <= lon /\ lon <= 360 -> -90 <= lat /\ lat <= 90 ->
   sla_utc2tdb K args = raise (ValueError "sla.utc2tdb: ra out of range 0 to 24") /\
   sla_amass K args = raise (ValueError "sla.amass: ra out of range 0 to 24")) /\
  (0 <= ra /\ ra <= 24 ->
   run h (sla_utc2tdb K args) <> Err (ValueError "sla.utc2tdb: ra out of range 0 to 24") /\
   run h (sla_amass K args) <> Err (ValueError "sla.amass: ra out of range 0 to 24")).
Proof.
  intros args. split; [|split].
  - intros Hra.
    destruct (utc2tdb_invalid_raises K args) as [e1 He1];
      [cbn; tauto|].
    destruct (amass_invalid_raises K args) as [e2 He2];
      [cbn; tauto|].
    rewrite He1, He2. split; reflexivity.
  - intros Hra Hlen Hlon Hlat.
    apply out_of_range_iff in Hra.
    assert (Hlen' : (length opt <= 6)%nat) by lia.
    subst args. unfold sla_utc2tdb, sla_amass.
    pass_arity Hlen. pass_arity Hlen'. rewrite !bind_reject_if.
    rewrite (proj2 (in_range_iff _ _ _) Hlon),
      (proj2 (in_range_iff _ _ _) Hlat), Hra.
    split; reflexivity.
  - intros Hra. apply in_range_iff in Hra.
    subst args. unfold sla_utc2tdb, sla_amass.
    split.
    + destruct (5 <? length opt)%nat; [discriminate|].
      rewrite !bind_reject_if, Hra.
      repeat (next_check; [discriminate|]).
      exec h. discriminate.
    + destruct (6 <? length opt)%nat; [discriminate|].
      rewrite !bind_reject_if, Hra.
      repeat (next_check; [discriminate|]).
      exec h. discriminate.
Qed.

(** C4, amended, at 25 hours (rejected) and at 24 hours (let through). *)
Lemma ra_check_closed_interval_witness :
  ((25 < 0 \/ 24 < 25) /\
   is_err (run quiet (sla_utc2tdb trm_constants (sirius 25))) = true /\
   is_err (run quiet (sla_amass trm_constants (sirius 25))) = true) /\
  ((0 <= 24 /\ 24 <= 24) /\
   run quiet (sla_utc2tdb trm_constants (sirius 24)) <>
     Err (ValueError "sla.utc2tdb: ra out of range 0 to 24") /\
   run quiet (sla_amass trm_constants (sirius 24)) <>
     Err (ValueError "sla.amass: ra out of range 0 to 24")).
Proof.
  assert (H25 : 25 < 0 \/ 24 < 25) by (right; lra).
  assert (H24 : 0 <= 24 /\ 24 <= 24) by (split; lra).
  split; (split; [assumption|]).
  - exact (proj1 (ra_check_closed_interval trm_constants quiet
      51544 0 28.76 2396 25 (-16.72) []) H25).
  - exact (proj2 (proj2 (ra_check_closed_interval trm_constants quiet
      51544 0 28.76 2396 24 (-16.72) [])) H24).
Defined.

(** C7 as stated fails: a right ascension of 24 hours is outside the
    range [0, 24) of the spec, and both wrappers run their whole chain
    on it, thirteen and seven calls of the library. *)
Lemma chain_runs_at_ra_24 :
  spec_utc2tdb_invalid (sirius 24) /\
  is_err (run quiet (sla_utc2tdb trm_constants (sirius 24))) = false /\
  length (trace quiet (sla_utc2tdb trm_constants (sirius 24))) = 13%nat /\
  spec_amass_invalid (sirius 24) /\
  is_err (run quiet (sla_amass trm_constants (sirius 24))) = false /\
  length (trace quiet (sla_amass trm_constants (sirius 24))) = 7%nat.
Proof.
  assert (Hra : 24 < 0 \/ 24 <= 24) by (right; lra).
  split; [cbn; tauto|]. split; [vm_compute; reflexivity|].
  split; [vm_compute; reflexivity|].
  split; [cbn; tauto|]. split; vm_compute; reflexivity.
Qed.

(** C7, amended.  Validation comes before any computation: a run
    that ends in an exception has made no call of the library; a
    wrapper raises at once on every input one of its tests turns down
    (a wrong number of arguments, a longitude outside [-360, 360], a
    latitude outside [-90, 90], a right ascension outside the closed
    [0, 24], a declination outside [-90, 90], a wavelength of 0 or
    less); and every input the ranges of the spec turn down is so
    raised, unless its right ascension is 24 hours or its wavelength is
    above [10^6] microns. *)
Theorem validation_before_computation K h args :
  (is_err (run h (sla_utc2tdb K args)) = true ->
   trace h (sla_utc2tdb K args) = []) /\
  (is_err (run h (sla_amass K args)) = true ->
   trace h (sla_amass K args) = []) /\
  (utc2tdb_invalid args -> exists e, sla_utc2tdb K args = raise e) /\
  (amass_invalid args -> exists e, sla_amass K args = raise e) /\
  (spec_utc2tdb_invalid args ->
   (exists e, sla_utc2tdb K args = raise e) \/ nth 4 args 0 == 24) /\
  (spec_amass_invalid args ->
   (exists e, sla_amass K args = raise e) \/ nth 4 args 0 == 24 \/
   1000000 < nth 6 args 0.55).
Proof.
  split; [|split; [|split; [|split; [|split]]]].
  - intros H. apply (utc2tdb_error_no_call K h args H).
  - intros H. apply (amass_error_no_call K h args H).
  - apply utc2tdb_invalid_raises.
  - apply amass_invalid_raises.
  - intros Hspec.
    destruct args as [|utc [|lon [|lat [|hgt [|ra [|dec opt]]]]]];
      try contradiction.
    cbn [spec_utc2tdb_invalid nth] in *.
    destruct (Qeq_dec ra 24) as [H24 | H24]; [right; exact H24|].
    left. apply utc2tdb_invalid_raises. cbn [utc2tdb_invalid].
    destruct Hspec as [H|[H|[[H|H]|H]]]; try tauto.
    assert (24 < ra) by (apply Qle_lt_or_eq in H; destruct H as [H|H];
                         [exact H | symmetry in H; contradiction]).
    tauto.
  - intros Hspec.
    destruct args as [|utc [|lon [|lat [|hgt [|ra [|dec opt]]]]]];
      try contradiction.
    cbn [spec_amass_invalid] in Hspec.
    change (nth 4 (utc :: lon :: lat :: hgt :: ra :: dec :: opt) 0)
      with ra.
    change (nth 6 (utc :: lon :: lat :: hgt :: ra :: dec :: opt) 0.55)
      with (nth 0 opt 0.55).
    destruct (Qeq_dec ra 24) as [H24 | H24]; [right; left; exact H24|].
    destruct Hspec as [H|[H|[[H|H]|[H|[H|H]]]]];
      try (left; apply amass_invalid_raises; cbn [amass_invalid]; tauto).
    + assert (24 < ra) by (apply Qle_lt_or_eq in H; destruct H as [H|H];
                           [exact H | symmetry in H; contradiction]).
      left. apply amass_invalid_raises. cbn [amass_invalid]. tauto.
    + right. right. exact H.
Qed.

(** C7, amended, at a longitude of 400 degrees. *)
Lemma validation_before_computation_witness :
  amass_invalid [51544; 400; 28.76; 2396; 6.75; -16.72] /\
  spec_amass_invalid [51544; 400; 28.76; 2396; 6.75; -16.72] /\
  (exists e, sla_amass trm_constants [51544; 400; 28.76; 2396; 6.75; -16.72]
             = raise e) /\
  is_err (run quiet
            (sla_amass trm_constants [51544; 400; 28.76; 2396; 6.75; -16.72]))
    = true /\
  trace quiet (sla_amass trm_constants [51544; 400; 28.76; 2396; 6.75; -16.72])
    = [].
Proof.
  assert (Hinv : amass_invalid [51544; 400; 28.76; 2396; 6.75; -16.72])
    by (cbn; right; left; right; lra).
  assert (Hspec : spec_amass_invalid [51544; 400; 28.76; 2396; 6.75; -16.72])
    by (cbn; left; right; lra).
  assert (Herr : is_err (run quiet (sla_amass trm_constants
            [51544; 400; 28.76; 2396; 6.75; -16.72])) = true)
    by (vm_compute; reflexivity).
  pose proof (validation_before_computation trm_constants quiet
                [51544; 400; 28.76; 2396; 6.75; -16.72])
    as (_ & Hb & _ & Ha & _ & _).
  split; [exact Hinv | split; [exact Hspec | split; [exact (Ha Hinv) | split;
    [exact Herr | exact (Hb Herr)]]]].
Defined.

(** A run of [sla_amass] that returns had valid input. *)
Lemma amass_returns_valid K h args :
  is_err (run h (sla_amass K args)) = false ->
  exists utc lon lat hgt ra dec opt,
    args = utc :: lon :: lat :: hgt :: ra :: dec :: opt /\
    amass_valid lon lat ra dec opt.
Proof.
  unfold sla_amass.
  destruct args as [|utc [|lon [|lat [|hgt [|ra [|dec opt]]]]]];
    try discriminate.
  destruct (6 <? length opt)%nat eqn:Elen; [discriminate|].
  rewrite !bind_reject_if.
  repeat (next_check; [discriminate|]).
  intros _. checks_to_props.
  exists utc, lon, lat, hgt, ra, dec, opt.
  unfold amass_valid, angles_valid. tauto.
Qed.

(** ** The parallactic angle *)

(** The normalisation [paob > 0. ? paob : 360. + paob] sends the
    half-turn around 0 into the interval from 0 (excluded) to 360
    (included). *)
Lemma normalised_range (pi pa : Q) :
  0 < pi -> - pi <= pa /\ pa <= pi ->
  let paob := pa / (pi / 180) in
  0 < (if paob >? 0 then paob else 360 + paob) /\
  (if paob >? 0 then paob else 360 + paob) <= 360.
Proof.
  intros Hpi [Hlo Hhi] paob.
  assert (Hc : 0 < pi / 180) by (apply Qlt_shift_div_l; lra).
  assert (Hturn : 180 * (pi / 180) == pi) by field.
  assert (Hup : paob <= 180)
    by (apply Qle_shift_div_r; [exact Hc | rewrite Hturn; exact Hhi]).
  assert (Hdown : -180 <= paob).
  { apply Qle_shift_div_l; [exact Hc|].
    setoid_replace (-180 * (pi / 180)) with (- pi) by field. exact Hlo. }
  destruct (paob >? 0) eqn:Epos.
  - apply double_ltb_iff in Epos. split; lra.
  - apply double_ltb_false_iff in Epos. split; lra.
Qed.

(** C2.  With [slaPa] answering an angle of the half-turn around 0,
    the parallactic angle [sla_amass] returns lies above 0 and is at
    most 360 degrees, and it is 360 whenever [slaPa] answers 0: the
    test [paob > 0.] sends 0 to [360. + 0]. *)
Theorem parallactic_angle_360 K h utc lon lat hgt ra dec opt :
  amass_valid lon lat ra dec opt ->
  let args := utc :: lon :: lat :: hgt :: ra :: dec :: opt in
  exists r ha d phi pa,
    run h (sla_amass K args) = Ok r /\
    In (Ev (SlaPa ha d phi) pa) (trace h (sla_amass K args)) /\
    (pa == 0 -> paob r == 360) /\
    (0 < PI K -> - PI K <= pa /\ pa <= PI K ->
     0 < paob r /\ paob r <= 360).
Proof.
  intros Hvalid args.
  destruct (amass_valid_run K h utc lon lat hgt ra dec opt Hvalid)
    as (nepoch & r1 & d1 & aob & zob & hob & dob & rob & refa & refb &
        tanz & am & pa & Htrace & Hrun).
  subst args. rewrite Htrace, Hrun.
  eexists _, _, _, _, pa. split; [reflexivity|]. split; [|split].
  - simpl. tauto.
  - intros Hpa. cbn [paob].
    assert (Hz : pa / (PI K / 180) == 0)
      by (unfold Qdiv at 1; rewrite Hpa; apply Qmult_0_l).
    assert (Hle : pa / (PI K / 180) <= 0) by (rewrite Hz; apply Qle_refl).
    rewrite (proj2 (double_ltb_false_iff _ _) Hle), Hz. reflexivity.
  - intros Hpi Hpa. cbn [paob]. apply (normalised_range (PI K) pa Hpi Hpa).
Qed.

(** C2 on the zenith of La Palma, where [quiet] has [slaPa] answer 0. *)
Lemma parallactic_angle_360_witness :
  amass_valid 0 28.76 6.75 (-16.72) [] /\
  exists r ha d phi pa,
    run quiet (sla_amass trm_constants (sirius 6.75)) = Ok r /\
    In (Ev (SlaPa ha d phi) pa)
       (trace quiet (sla_amass trm_constants (sirius 6.75))) /\
    (pa == 0 -> paob r == 360) /\
    (0 < PI trm_constants ->
     - PI trm_constants <= pa /\ pa <= PI trm_constants ->
     0 < paob r /\ paob r <= 360).
Proof.
  assert (Hvalid : amass_valid 0 28.76 6.75 (-16.72) []).
  { unfold amass_valid, angles_valid. cbn [length nth].
    repeat split; try lra; lia. }
  split; [exact Hvalid|].
  exact (parallactic_angle_360 trm_constants quiet
           51544 0 28.76 2396 6.75 (-16.72) [] Hvalid).
Defined.

(** The parallactic angle returned on the zenith of La Palma. *)
Example parallactic_angle_360_returned :
  exists r, run quiet (sla_amass trm_constants (sirius 6.75)) = Ok r /\
            paob r == 360.
Proof. eexists. split; [vm_compute; reflexivity | reflexivity]. Qed.

(** An hour angle in hours differs from the same angle in radians. *)
Lemma hours_not_radians (twopi hob : Q) :
  ~ twopi == 24 -> ~ hob == 0 -> ~ hob * (24 / twopi) == hob.
Proof.
  intros Htwopi Hhob Heq.
  destruct (Qeq_dec twopi 0) as [Hz | Hnz].
  - apply Hhob. rewrite <- Heq. unfold Qdiv. rewrite Hz.
    unfold Qinv; simpl. ring.
  - apply Htwopi.
    assert (H1 : hob * (24 / twopi) * twopi == hob * twopi)
      by (rewrite Heq; reflexivity).
    assert (H2 : hob * (24 / twopi) * twopi == hob * 24)
      by (field; exact Hnz).
    rewrite H2 in H1.
    apply (Qmult_inj_l twopi 24 hob Hhob). symmetry. exact H1.
Qed.

(** C3.  [sla_amass] calls [slaPa] with the declination and the
    latitude in radians but with the observed hour angle already
    converted to hours: the hour angle [hob] that [slaI2o] answers in
    radians is passed as [hob * (24 / TWOPI)], which is not [hob]. *)
Theorem parallactic_angle_hour_angle_in_hours
    K h utc lon lat hgt ra dec opt :
  amass_valid lon lat ra dec opt ->
  let args := utc :: lon :: lat :: hgt :: ra :: dec :: opt in
  let CFAC := PI K / 180 in
  exists r ri di nepoch aob zob hob dob rob pa,
    run h (sla_amass K args) = Ok r /\
    In (Ev (SlaPm (CFAC * 15 * ra) (CFAC * dec)
              (CFAC * nth 1 opt 0 / 3600) (CFAC * nth 2 opt 0 / 3600)
              (nth 4 opt 0) (nth 5 opt 0) (nth 3 opt 2000) nepoch) (ri, di))
       (trace h (sla_amass K args)) /\
    In (Ev (SlaI2o ri di utc 0 (CFAC * lon) (CFAC * lat) hgt 0 0
              285 1013.25 0.2 (nth 0 opt 0.55) 0.0065)
           (aob, zob, hob, dob, rob))
       (trace h (sla_amass K args)) /\
    In (Ev (SlaPa (hob * (24 / TWOPI K)) di (CFAC * lat)) pa)
       (trace h (sla_amass K args)) /\
    haob r = hob * (24 / TWOPI K) /\
    paob r = (if pa / CFAC >? 0 then pa / CFAC else 360 + pa / CFAC) /\
    (~ TWOPI K == 24 -> ~ hob == 0 -> ~ hob * (24 / TWOPI K) == hob).
Proof.
  intros Hvalid args CFAC.
  destruct (amass_valid_run K h utc lon lat hgt ra dec opt Hvalid)
    as (nepoch & r1 & d1 & aob & zob & hob & dob & rob & refa & refb &
        tanz & am & pa & Htrace & Hrun).
  subst args CFAC. rewrite Htrace, Hrun.
  eexists _, r1, d1, nepoch, aob, zob, hob, dob, rob, pa.
  split; [reflexivity|]. cbn [haob paob].
  repeat split; try (simpl; tauto).
  apply hours_not_radians.
Qed.

(** C3 with an observed hour angle of a quarter turn: [slaPa] is
    handed 6 (hours), not [TWOPI / 4] (radians). *)
Lemma parallactic_angle_hour_angle_in_hours_witness :
  let h := with_hour_angle quiet (TWOPI trm_constants / 4) (fun ha => ha) in
  amass_valid 0 28.76 6.75 (-16.72) [] /\
  (exists d phi pa,
     In (Ev (SlaPa pa d phi) pa)
        (trace h (sla_amass trm_constants (sirius 6.75))) /\
     pa == 6) /\
  exists r ri di nepoch aob zob hob dob rob pa,
    run h (sla_amass trm_constants (sirius 6.75)) = Ok r /\
    In (Ev (SlaPm (PI trm_constants / 180 * 15 * 6.75)
              (PI trm_constants / 180 * -16.72)
              (PI trm_constants / 180 * 0 / 3600)
              (PI trm_constants / 180 * 0 / 3600) 0 0 2000 nepoch) (ri, di))
       (trace h (sla_amass trm_constants (sirius 6.75))) /\
    In (Ev (SlaI2o ri di 51544 0 (PI trm_constants / 180 * 0)
              (PI trm_constants / 180 * 28.76) 2396 0 0
              285 1013.25 0.2 0.55 0.0065)
           (aob, zob, hob, dob, rob))
       (trace h (sla_amass trm_constants (sirius 6.75))) /\
    In (Ev (SlaPa (hob * (24 / TWOPI trm_constants)) di
              (PI trm_constants / 180 * 28.76)) pa)
       (trace h (sla_amass trm_constants (sirius 6.75))) /\
    haob r = hob * (24 / TWOPI trm_constants) /\
    paob r = (if pa / (PI trm_constants / 180) >? 0
              then pa / (PI trm_constants / 180)
              else 360 + pa / (PI trm_constants / 180)) /\
    (~ TWOPI trm_constants == 24 -> ~ hob == 0 ->
     ~ hob * (24 / TWOPI trm_constants) == hob).
Proof.
  intros h.
  assert (Hvalid : amass_valid 0 28.76 6.75 (-16.72) []).
  { unfold amass_valid, angles_valid. cbn [length nth].
    repeat split; try lra; lia. }
  split; [exact Hvalid | split].
  - eexists _, _, _. split.
    + do 6 right. left. reflexivity.
    + vm_compute. reflexivity.
  - exact (parallactic_angle_hour_angle_in_hours trm_constants h
             51544 0 28.76 2396 6.75 (-16.72) [] Hvalid).
Defined.

(** ** Refraction *)



(** ** Fixed conditions *)

(** C10.  Every call [sla_amass] makes of [slaI2o] and of
    [slaRefcoq] has the fixed conditions (no UT1-UTC, no polar motion,
    285 K, 1013.25 mbar, humidity 0.2, lapse rate 0.0065 K/m), it makes
    both calls on accepted input, and the program it runs is determined
    by its six required arguments and the six optional ones with their
    defaults filled in. *)
Theorem fixed_atmosphere K h utc lon lat hgt ra dec opt :
  let args := utc :: lon :: lat :: hgt :: ra :: dec :: opt in
  Forall standard_conditions (trace h (sla_amass K args)) /\
  (amass_valid lon lat ra dec opt ->
   exists ri di elongm phim i2o refco,
     In (Ev (SlaI2o ri di utc 0 elongm phim hgt 0 0
               285 1013.25 0.2 (nth 0 opt 0.55) 0.0065) i2o)
        (trace h (sla_amass K args)) /\
     In (Ev (SlaRefcoq 285 1013.25 0.2 (nth 0 opt 0.55)) refco)
        (trace h (sla_amass K args))) /\
  (forall opt',
     (length opt <= 6)%nat -> (length opt' <= 6)%nat ->
     amass_optional opt = amass_optional opt' ->
     sla_amass K args =
     sla_amass K (utc :: lon :: lat :: hgt :: ra :: dec :: opt')).
Proof.
  intros args. split; [|split].
  - destruct (is_err (run h (sla_amass K args))) eqn:Herr.
    + rewrite (proj2 (amass_error_no_call K h args Herr)). constructor.
    + destruct (amass_returns_valid K h args Herr)
        as (utc' & lon' & lat' & hgt' & ra' & dec' & opt' & Hargs & Hvalid).
      rewrite Hargs.
      destruct (amass_valid_run K h utc' lon' lat' hgt' ra' dec' opt' Hvalid)
        as (nepoch & r1 & d1 & aob & zob & hob & dob & rob & refa & refb &
            tanz & am & pa & Htrace & _).
      rewrite Htrace.
      repeat constructor.
  - intros Hvalid.
    destruct (amass_valid_run K h utc lon lat hgt ra dec opt Hvalid)
      as (nepoch & r1 & d1 & aob & zob & hob & dob & rob & refa & refb &
          tanz & am & pa & Htrace & _).
    subst args. rewrite Htrace.
    eexists _, _, _, _, _, _. split; simpl; eauto 10.
  - intros opt' Hlen Hlen' Hopt. subst args. unfold sla_amass.
    pass_arity Hlen. pass_arity Hlen'.
    unfold amass_optional in Hopt.
    injection Hopt as -> -> -> -> -> ->. reflexivity.
Qed.

(** C10 on the sample observation, with the wavelength left out and
    with the default wavelength given. *)
Lemma fixed_atmosphere_witness :
  amass_valid 0 28.76 6.75 (-16.72) [] /\
  (exists ri di elongm phim i2o refco,
     In (Ev (SlaI2o ri di 51544 0 elongm phim 2396 0 0
               285 1013.25 0.2 0.55 0.0065) i2o)
        (trace quiet (sla_amass trm_constants (sirius 6.75))) /\
     In (Ev (SlaRefcoq 285 1013.25 0.2 0.55) refco)
        (trace quiet (sla_amass trm_constants (sirius 6.75)))) /\
  sla_amass trm_constants (sirius 6.75) =
  sla_amass trm_constants (sirius 6.75 ++ [0.55]).
Proof.
  assert (Hvalid : amass_valid 0 28.76 6.75 (-16.72) []).
  { unfold amass_valid, angles_valid. cbn [length nth].
    repeat split; try lra; lia. }
  pose proof (fixed_atmosphere trm_constants quiet
                51544 0 28.76 2396 6.75 (-16.72) []) as (_ & Hcalls & Hdet).
  split; [exact Hvalid | split; [exact (Hcalls Hvalid)|]].
  apply (Hdet [0.55]); [cbn; lia | cbn; lia | reflexivity].
Defined.

(** ** Time scales and light travel time *)

(** C9.  On accepted input [sla_utc2tdb] returns
    [tt = utc + dtt / 86400], where [dtt] is what [slaDtt] answers for
    [utc], and [utc <= tt] when [dtt] is not negative. *)
Theorem tt_not_before_utc K h utc lon lat hgt ra dec opt :
  utc2tdb_valid lon lat ra dec opt -> DAY K == 86400 ->
  let args := utc :: lon :: lat :: hgt :: ra :: dec :: opt in
  exists r dtt,
    run h (sla_utc2tdb K args) = Ok r /\
    In (Ev (SlaDtt utc) dtt) (trace h (sla_utc2tdb K args)) /\
    tt r == utc + dtt / 86400 /\
    (0 <= dtt -> utc <= tt r).
Proof.
  intros Hvalid Hday args.
  destruct (utc2tdb_valid_run K h utc lon lat hgt ra dec opt Hvalid)
    as (u & v & dtt & rcc & ph & vh & pb & vb & gmst & eqeqx & pv0 & pv3 &
        rnpb & padd & vadd & nepoch & r1 & d1 & targ & Htrace & Hrun).
  subst args. rewrite Htrace, Hrun.
  eexists _, dtt.
  split; [reflexivity|]. cbn [tt].
  assert (Htt : utc + dtt / DAY K == utc + dtt / 86400)
    by (rewrite Hday; reflexivity).
  split; [simpl; tauto | split; [exact Htt|]].
  intros Hdtt. rewrite Htt.
  assert (0 <= dtt / 86400) by (apply Qle_shift_div_l; lra).
  lra.
Qed.

(** C9 on the sample observation, with TT-UTC = 64.184 s. *)
Lemma tt_not_before_utc_witness :
  utc2tdb_valid 0 28.76 6.75 (-16.72) [] /\
  DAY trm_constants == 86400 /\
  exists r dtt,
    run quiet (sla_utc2tdb trm_constants (sirius 6.75)) = Ok r /\
    In (Ev (SlaDtt 51544) dtt)
       (trace quiet (sla_utc2tdb trm_constants (sirius 6.75))) /\
    tt r == 51544 + dtt / 86400 /\
    (0 <= dtt -> 51544 <= tt r).
Proof.
  assert (Hvalid : utc2tdb_valid 0 28.76 6.75 (-16.72) []).
  { unfold utc2tdb_valid, angles_valid. cbn [length].
    repeat split; try lra; lia. }
  assert (Hday : DAY trm_constants == 86400) by reflexivity.
  split; [exact Hvalid | split; [exact Hday|]].
  exact (tt_not_before_utc trm_constants quiet
           51544 0 28.76 2396 6.75 (-16.72) [] Hvalid Hday).
Defined.



(** ** The calendar *)

(** The MJD of 1 January 2000. *)
Example mjd_2000_01_01 : Calendar.slaCldj 2000 1 1 = (51544, 0%Z).
Proof. reflexivity. Qed.

(** 1900 was not a leap year. *)
Example mjd_1900_02_30 : snd (Calendar.slaCldj 1900 2 30) = 3%Z.
Proof. reflexivity. Qed.

(** C6.  [sla_cldj] turns the three failure statuses of [slaCldj]
    into three [ValueError]s whose messages name the year, the month
    and the day with the offending value; with the calendar routine of
    the spec, a year below the minimum, a month outside 1-12 and a day
    outside the month are reported so, and [(2023, 13, 1)] fails with
    the bad-month error. *)
Theorem sla_cldj_errors (h : handler) (year month day : Z) :
  fits_int year && fits_int month && fits_int day = true ->
  (forall mjd status,
     h _ (SlaCldj year month day) = (mjd, status) ->
     run h (sla_cldj [year; month; day]) =
       if (status =? 1)%Z then
         Err (ValueError ("sla.cldj: bad year = " ++ str year))
       else if (status =? 2)%Z then
         Err (ValueError ("sla.cldj: bad month = " ++ str month))
       else if (status =? 3)%Z then
         Err (ValueError ("sla.cldj: bad day = " ++ str day))
       else Ok mjd) /\
  ((year < Calendar.min_year)%Z ->
   run (with_slaCldj h) (sla_cldj [year; month; day]) =
     Err (ValueError ("sla.cldj: bad year = " ++ str year))) /\
  ((Calendar.min_year <= year)%Z -> (month < 1 \/ 12 < month)%Z ->
   run (with_slaCldj h) (sla_cldj [year; month; day]) =
     Err (ValueError ("sla.cldj: bad month = " ++ str month))) /\
  ((Calendar.min_year <= year)%Z -> (1 <= month <= 12)%Z ->
   (day < 1 \/ Calendar.month_length year month < day)%Z ->
   run (with_slaCldj h) (sla_cldj [year; month; day]) =
     Err (ValueError ("sla.cldj: bad day = " ++ str day))) /\
  run (with_slaCldj h) (sla_cldj [2023; 13; 1]%Z) =
    Err (ValueError "sla.cldj: bad month = 13").
Proof.
  intros Hfit. repeat split.
  - intros mjd status Hans. unfold sla_cldj. rewrite Hfit.
    cbn [negb run pbind bind ret Monad_py call raise]. rewrite Hans.
    repeat (match goal with
            | |- context [(status =? ?n)%Z] => destruct (status =? n)%Z
            end; [reflexivity|]).
    reflexivity.
  - intros Hy. unfold sla_cldj. rewrite Hfit.
    cbn [negb run pbind bind ret Monad_py call raise with_slaCldj].
    unfold Calendar.slaCldj.
    rewrite (proj2 (Z.ltb_lt _ _) Hy). reflexivity.
  - intros Hy Hm. unfold sla_cldj. rewrite Hfit.
    cbn [negb run pbind bind ret Monad_py call raise with_slaCldj].
    unfold Calendar.slaCldj.
    rewrite (proj2 (Z.ltb_ge _ _) Hy).
    assert (Hb : ((month <? 1) || (12 <? month))%Z = true)
      by (apply orb_true_iff; rewrite !Z.ltb_lt; exact Hm).
    rewrite Hb. reflexivity.
  - intros Hy Hm Hd. unfold sla_cldj. rewrite Hfit.
    cbn [negb run pbind bind ret Monad_py call raise with_slaCldj].
    unfold Calendar.slaCldj.
    rewrite (proj2 (Z.ltb_ge _ _) Hy).
    assert (Hb : ((month <? 1) || (12 <? month))%Z = false)
      by (apply orb_false_iff; rewrite !Z.ltb_ge; lia).
    assert (Hc : ((day <? 1) || (Calendar.month_length year month <? day))%Z
                 = true)
      by (apply orb_true_iff; rewrite !Z.ltb_lt; exact Hd).
    rewrite Hb, Hc. reflexivity.
Qed.

(** C6 at the date [(2023, 13, 1)]. *)
Lemma sla_cldj_errors_witness :
  fits_int 2023 && fits_int 13 && fits_int 1 = true /\
  run (with_slaCldj quiet) (sla_cldj [2023; 13; 1]%Z) =
    Err (ValueError "sla.cldj: bad month = 13").
Proof.
  assert (Hfit : fits_int 2023 && fits_int 13 && fits_int 1 = true)
    by reflexivity.
  split; [exact Hfit|].
  exact (proj2 (proj2 (proj2 (proj2
    (sla_cldj_errors quiet 2023 13 1 Hfit))))).
Defined.

(** * Further properties of the wrappers *)

(** ** Calls of the library *)

(** Every answer in a trace is the answer of the library. *)
Lemma trace_answered {A} (h : handler) (p : prog A) :
  Forall (answered_by h) (trace h p).
Proof.
  induction p as [a | X c k IH]; cbn [trace].
  - constructor.
  - constructor; [reflexivity | apply IH].
Qed.

(** A run of [sla_utc2tdb] that returns had valid input. *)
Lemma utc2tdb_returns_valid K h args :
  is_err (run h (sla_utc2tdb K args)) = false ->
  exists utc lon lat hgt ra dec opt,
    args = utc :: lon :: lat :: hgt :: ra :: dec :: opt /\
    utc2tdb_valid lon lat ra dec opt.
Proof.
  unfold sla_utc2tdb.
  destruct args as [|utc [|lon [|lat [|hgt [|ra [|dec opt]]]]]];
    try discriminate.
  destruct (5 <? length opt)%nat eqn:Elen; [discriminate|].
  rewrite !bind_reject_if.
  repeat (next_check; [discriminate|]).
  intros _. checks_to_props.
  exists utc, lon, lat, hgt, ra, dec, opt.
  unfold utc2tdb_valid, angles_valid. tauto.
Qed.

(** X4.  A run of [sla_utc2tdb] makes thirteen calls of the library
    when it returns and none when it raises; a run of [sla_amass]
    makes seven or none. *)
Theorem library_call_counts K h args :
  length (trace h (sla_utc2tdb K args)) =
    (if is_err (run h (sla_utc2tdb K args)) then 0 else 13)%nat /\
  length (trace h (sla_amass K args)) =
    (if is_err (run h (sla_amass K args)) then 0 else 7)%nat.
Proof.
  split.
  - destruct (is_err (run h (sla_utc2tdb K args))) eqn:Herr.
    + rewrite (proj2 (utc2tdb_error_no_call K h args Herr)). reflexivity.
    + destruct (utc2tdb_returns_valid K h args Herr)
        as (utc & lon & lat & hgt & ra & dec & opt & -> & Hvalid).
      destruct (utc2tdb_valid_run K h utc lon lat hgt ra dec opt Hvalid)
        as (u & v & dtt & rcc & ph & vh & pb & vb & gmst & eqeqx & pv0 &
            pv3 & rnpb & padd & vadd & nepoch & r1 & d1 & targ & Htrace & _).
      rewrite Htrace. reflexivity.
  - destruct (is_err (run h (sla_amass K args))) eqn:Herr.
    + rewrite (proj2 (amass_error_no_call K h args Herr)). reflexivity.
    + destruct (amass_returns_valid K h args Herr)
        as (utc & lon & lat & hgt & ra & dec & opt & -> & Hvalid).
      destruct (amass_valid_run K h utc lon lat hgt ra dec opt Hvalid)
        as (nepoch & r1 & d1 & aob & zob & hob & dob & rob & refa & refb &
            tanz & am & pa & Htrace & _).
      rewrite Htrace. reflexivity.
Qed.

(** ** Which test fires *)

(** X5.  The tests of [sla_utc2tdb] fire in the order longitude,
    latitude, right ascension, declination, and the first one that
    fails decides the message, whatever the later arguments are. *)
Theorem sla_utc2tdb_first_error K utc lon lat hgt ra dec opt :
  (length opt <= 5)%nat ->
  let p := sla_utc2tdb K (utc :: lon :: lat :: hgt :: ra :: dec :: opt) in
  (lon < -360 \/ 360 < lon ->
   p = raise (ValueError
                "sla.utc2tdb: longituge out of range -360 to +360")) /\
  (-360 <= lon /\ lon <= 360 -> lat < -90 \/ 90 < lat ->
   p = raise (ValueError "sla.utc2tdb: latitude out of range -90 to +90")) /\
  (-360 <= lon /\ lon <= 360 -> -90 <= lat /\ lat <= 90 ->
   ra < 0 \/ 24 < ra ->
   p = raise (ValueError "sla.utc2tdb: ra out of range 0 to 24")) /\
  (-360 <= lon /\ lon <= 360 -> -90 <= lat /\ lat <= 90 ->
   0 <= ra /\ ra <= 24 -> dec < -90 \/ 90 < dec ->
   p = raise (ValueError
                "sla.utc2tdb: declination out of range -90 to +90")).
Proof.
  intros Hlen p. subst p. unfold sla_utc2tdb.
  pass_arity Hlen. rewrite !bind_reject_if.
  repeat split; intros;
    repeat match goal with
    | H : _ <= _ /\ _ <= _ |- _ =>
        rewrite (proj2 (in_range_iff _ _ _) H); clear H
    | H : _ < _ \/ _ < _ |- _ =>
        rewrite (proj2 (out_of_range_iff _ _ _) H); clear H
    end; reflexivity.
Qed.

(** X5 at a longitude of 400 degrees and a latitude of 100 degrees:
    the message is the one of the longitude. *)
Lemma sla_utc2tdb_first_error_witness :
  (length (@nil Q) <= 5)%nat /\ (400 < -360 \/ 360 < 400) /\
  sla_utc2tdb trm_constants [51544; 400; 100; 2396; 6.75; -16.72] =
    raise (ValueError "sla.utc2tdb: longituge out of range -360 to +360").
Proof.
  assert (Hlen : (length (@nil Q) <= 5)%nat) by (cbn; lia).
  assert (Hlon : 400 < -360 \/ 360 < 400) by (right; lra).
  split; [exact Hlen | split; [exact Hlon|]].
  exact (proj1 (sla_utc2tdb_first_error trm_constants
                  51544 400 100 2396 6.75 (-16.72) [] Hlen) Hlon).
Defined.

(** X6.  The tests of [sla_amass] fire in the order longitude,
    latitude, right ascension, declination, wavelength, and the first
    one that fails decides the message; the messages of the
    declination and of the wavelength are the same. *)
Theorem sla_amass_first_error K utc lon lat hgt ra dec opt :
  (length opt <= 6)%nat ->
  let p := sla_amass K (utc :: lon :: lat :: hgt :: ra :: dec :: opt) in
  (lon < -360 \/ 360 < lon ->
   p = raise (ValueError
                "sla.amass: longituge out of range -360 to +360")) /\
  (-360 <= lon /\ lon <= 360 -> lat < -90 \/ 90 < lat ->
   p = raise (ValueError "sla.amass: latitude out of range -90 to +90")) /\
  (-360 <= lon /\ lon <= 360 -> -90 <= lat /\ lat <= 90 ->
   ra < 0 \/ 24 < ra ->
   p = raise (ValueError "sla.amass: ra out of range 0 to 24")) /\
  (-360 <= lon /\ lon <= 360 -> -90 <= lat /\ lat <= 90 ->
   0 <= ra /\ ra <= 24 -> dec < -90 \/ 90 < dec \/ nth 0 opt 0.55 <= 0 ->
   p = raise (ValueError
                "sla.amass: declination out of range -90 to +90")).
Proof.
  intros Hlen p. subst p. unfold sla_amass.
  pass_arity Hlen. rewrite !bind_reject_if.
  rewrite chained_comparison_false, orb_false_r.
  split; [|split; [|split]].
  - intros Hlon. rewrite (proj2 (out_of_range_iff _ _ _) Hlon). reflexivity.
  - intros Hlon Hlat.
    rewrite (proj2 (in_range_iff _ _ _) Hlon),
      (proj2 (out_of_range_iff _ _ _) Hlat). reflexivity.
  - intros Hlon Hlat Hra.
    rewrite (proj2 (in_range_iff _ _ _) Hlon),
      (proj2 (in_range_iff _ _ _) Hlat),
      (proj2 (out_of_range_iff _ _ _) Hra). reflexivity.
  - intros Hlon Hlat Hra Hbad.
    rewrite (proj2 (in_range_iff _ _ _) Hlon),
      (proj2 (in_range_iff _ _ _) Hlat), (proj2 (in_range_iff _ _ _) Hra).
    destruct ((dec <? -90) || (dec >? 90)) eqn:Edec; [reflexivity|].
    apply in_range_iff in Edec.
    assert (Hw : nth 0 opt 0.55 <= 0) by (destruct Hbad as [H|[H|H]]; lra).
    rewrite (proj2 (double_leb_iff _ _) Hw). reflexivity.
Qed.

(** X6 at a right ascension of 25 hours with a wavelength of 0: the
    message is the one of the right ascension. *)
Lemma sla_amass_first_error_witness :
  (length [0%Q] <= 6)%nat /\ (-360 <= 0 /\ 0 <= 360) /\
  (-90 <= 28.76 /\ 28.76 <= 90) /\ (25 < 0 \/ 24 < 25) /\
  sla_amass trm_constants [51544; 0; 28.76; 2396; 25; -16.72; 0] =
    raise (ValueError "sla.amass: ra out of range 0 to 24").
Proof.
  assert (Hlen : (length [0%Q] <= 6)%nat) by (cbn; lia).
  assert (Hlon : -360 <= 0 /\ 0 <= 360) by (split; lra).
  assert (Hlat : -90 <= 28.76 /\ 28.76 <= 90) by (split; lra).
  assert (Hra : 25 < 0 \/ 24 < 25) by (right; lra).
  split; [exact Hlen | split; [exact Hlon | split; [exact Hlat |
    split; [exact Hra|]]]].
  exact (proj1 (proj2 (proj2 (sla_amass_first_error trm_constants
           51544 0 28.76 2396 25 (-16.72) [0] Hlen))) Hlon Hlat Hra).
Defined.

(** ** Optional arguments *)

(** X7.  [sla_utc2tdb] reads its optional arguments through their
    defaults [pmra = 0], [pmdec = 0], [epoch = 2000], [parallax = 0]
    and [rv = 0]: two argument lists that agree once the defaults are
    filled in give the same program. *)
Theorem sla_utc2tdb_defaults K utc lon lat hgt ra dec opt opt' :
  (length opt <= 5)%nat -> (length opt' <= 5)%nat ->
  utc2tdb_optional opt = utc2tdb_optional opt' ->
  sla_utc2tdb K (utc :: lon :: lat :: hgt :: ra :: dec :: opt) =
  sla_utc2tdb K (utc :: lon :: lat :: hgt :: ra :: dec :: opt').
Proof.
  intros Hlen Hlen' Hopt. unfold sla_utc2tdb.
  pass_arity Hlen. pass_arity Hlen'.
  unfold utc2tdb_optional in Hopt.
  injection Hopt as -> -> -> -> ->. reflexivity.
Qed.

(** X7 with a proper motion given and the other optional arguments
    left out or spelled out. *)
Lemma sla_utc2tdb_defaults_witness :
  (length [0.5%Q; (-1.2)%Q] <= 5)%nat /\
  (length [0.5%Q; (-1.2)%Q; 2000%Q; 0%Q; 0%Q] <= 5)%nat /\
  utc2tdb_optional [0.5; -1.2] = utc2tdb_optional [0.5; -1.2; 2000; 0; 0] /\
  sla_utc2tdb trm_constants (sirius 6.75 ++ [0.5; -1.2]) =
  sla_utc2tdb trm_constants (sirius 6.75 ++ [0.5; -1.2; 2000; 0; 0]).
Proof.
  assert (H1 : (length [0.5%Q; (-1.2)%Q] <= 5)%nat) by (cbn; lia).
  assert (H2 : (length [0.5%Q; (-1.2)%Q; 2000%Q; 0%Q; 0%Q] <= 5)%nat)
    by (cbn; lia).
  assert (H3 : utc2tdb_optional [0.5; -1.2] =
               utc2tdb_optional [0.5; -1.2; 2000; 0; 0]) by reflexivity.
  split; [exact H1 | split; [exact H2 | split; [exact H3|]]].
  exact (sla_utc2tdb_defaults trm_constants 51544 0 28.76 2396 6.75 (-16.72)
           [0.5; -1.2] [0.5; -1.2; 2000; 0; 0] H1 H2 H3).
Defined.

(** ** Units of the observed place *)

(** Dividing by the radians in a degree keeps an angle of [0 .. n*pi]
    inside [0 .. n*180]. *)
Lemma degrees_le (pi x n : Q) :
  0 < pi -> x <= n * pi -> x / (pi / 180) <= n * 180.
Proof.
  intros Hpi Hx.
  assert (Hc : 0 < pi / 180) by (apply Qlt_shift_div_l; lra).
  apply Qle_shift_div_r; [exact Hc|].
  setoid_replace (n * 180 * (pi / 180)) with (n * pi) by field. exact Hx.
Qed.

Lemma degrees_ge (pi x n : Q) :
  0 < pi -> n * pi <= x -> n * 180 <= x / (pi / 180).
Proof.
  intros Hpi Hx.
  assert (Hc : 0 < pi / 180) by (apply Qlt_shift_div_l; lra).
  apply Qle_shift_div_l; [exact Hc|].
  setoid_replace (n * 180 * (pi / 180)) with (n * pi) by field. exact Hx.
Qed.

(** X8.  With [TWOPI = 2 PI > 0], [sla_amass] turns a zenith
    distance of [0 .. PI] into an altitude of [-90 .. 90] degrees, an
    azimuth of [0 .. TWOPI] into [0 .. 360] degrees and an hour angle
    of [-PI .. PI] into [-12 .. 12] hours; the airmass is the one
    [slaAirmas] gives for that same zenith distance. *)
Theorem observed_place_units K h utc lon lat hgt ra dec opt :
  amass_valid lon lat ra dec opt ->
  0 < PI K -> TWOPI K == 2 * PI K ->
  let args := utc :: lon :: lat :: hgt :: ra :: dec :: opt in
  exists r (i2o : extcall (Q * Q * Q * Q * Q)) aob zob hob dob rob,
    run h (sla_amass K args) = Ok r /\
    In (Ev i2o (aob, zob, hob, dob, rob)) (trace h (sla_amass K args)) /\
    In (Ev (SlaAirmas zob) (airmass r)) (trace h (sla_amass K args)) /\
    (0 <= zob /\ zob <= PI K -> -90 <= altob r /\ altob r <= 90) /\
    (0 <= aob /\ aob <= TWOPI K -> 0 <= azob r /\ azob r <= 360) /\
    (- PI K <= hob /\ hob <= PI K -> -12 <= haob r /\ haob r <= 12).
Proof.
  intros Hvalid Hpi Htwopi args.
  destruct (amass_valid_run K h utc lon lat hgt ra dec opt Hvalid)
    as (nepoch & r1 & d1 & aob & zob & hob & dob & rob & refa & refb &
        tanz & am & pa & Htrace & Hrun).
  subst args. rewrite Htrace, Hrun.
  eexists _, _, aob, zob, hob, dob, rob.
  split; [reflexivity|]. cbn [airmass altob azob haob].
  split; [simpl; tauto|]. split; [simpl; tauto|].
  split; [|split].
  - intros [Hlo Hhi].
    pose proof (degrees_le (PI K) zob 1 Hpi ltac:(lra)).
    pose proof (degrees_ge (PI K) zob 0 Hpi ltac:(lra)).
    split; lra.
  - intros [Hlo Hhi]. rewrite Htwopi in Hhi.
    pose proof (degrees_le (PI K) aob 2 Hpi ltac:(lra)).
    pose proof (degrees_ge (PI K) aob 0 Hpi ltac:(lra)).
    split; lra.
  - intros [Hlo Hhi]. rewrite Htwopi.
    assert (Hc : 0 < 2 * PI K / 24) by (apply Qlt_shift_div_l; lra).
    assert (Heq : hob * (24 / (2 * PI K)) == hob / (2 * PI K / 24))
      by (field; repeat split; intros Hz; rewrite Hz in Hpi; discriminate).
    rewrite Heq. split.
    + apply Qle_shift_div_l; [exact Hc|].
      setoid_replace (-12 * (2 * PI K / 24)) with (- PI K) by field.
      exact Hlo.
    + apply Qle_shift_div_r; [exact Hc|].
      setoid_replace (12 * (2 * PI K / 24)) with (PI K) by field.
      exact Hhi.
Qed.

(** X8 on the sample observation. *)
Lemma observed_place_units_witness :
  amass_valid 0 28.76 6.75 (-16.72) [] /\
  0 < PI trm_constants /\ TWOPI trm_constants == 2 * PI trm_constants /\
  exists r (i2o : extcall (Q * Q * Q * Q * Q)) aob zob hob dob rob,
    run quiet (sla_amass trm_constants (sirius 6.75)) = Ok r /\
    In (Ev i2o (aob, zob, hob, dob, rob))
       (trace quiet (sla_amass trm_constants (sirius 6.75))) /\
    In (Ev (SlaAirmas zob) (airmass r))
       (trace quiet (sla_amass trm_constants (sirius 6.75))) /\
    (0 <= zob /\ zob <= PI trm_constants ->
     -90 <= altob r /\ altob r <= 90) /\
    (0 <= aob /\ aob <= TWOPI trm_constants ->
     0 <= azob r /\ azob r <= 360) /\
    (- PI trm_constants <= hob /\ hob <= PI trm_constants ->
     -12 <= haob r /\ haob r <= 12).
Proof.
  assert (Hvalid : amass_valid 0 28.76 6.75 (-16.72) []).
  { unfold amass_valid, angles_valid. cbn [length nth].
    repeat split; try lra; lia. }
  assert (Hpi : 0 < PI trm_constants) by reflexivity.
  assert (Htwopi : TWOPI trm_constants == 2 * PI trm_constants)
    by reflexivity.
  split; [exact Hvalid | split; [exact Hpi | split; [exact Htwopi|]]].
  exact (observed_place_units trm_constants quiet
           51544 0 28.76 2396 6.75 (-16.72) [] Hvalid Hpi Htwopi).
Defined.

(** X9.  The angles [sla_amass] accepts reach the library in
    radians: with [TWOPI = 2 PI > 0], [slaPm] gets a right ascension
    of [0 .. TWOPI] (a full turn for 24 hours, not folded back to 0)
    and a declination of [-PI/2 .. PI/2], and [slaI2o] gets a longitude
    of [-TWOPI .. TWOPI] and a latitude of [-PI/2 .. PI/2]. *)
Theorem angles_reach_library_in_radians K h utc lon lat hgt ra dec opt :
  amass_valid lon lat ra dec opt ->
  0 < PI K -> TWOPI K == 2 * PI K ->
  let args := utc :: lon :: lat :: hgt :: ra :: dec :: opt in
  exists r0 d0 pr pd px rv ep0 ep1 pm ri di elongm phim i2o,
    In (Ev (SlaPm r0 d0 pr pd px rv ep0 ep1) pm)
       (trace h (sla_amass K args)) /\
    In (Ev (SlaI2o ri di utc 0 elongm phim hgt 0 0
               285 1013.25 0.2 (nth 0 opt 0.55) 0.0065) i2o)
       (trace h (sla_amass K args)) /\
    (0 <= r0 /\ r0 <= TWOPI K) /\ r0 == ra / 24 * TWOPI K /\
    (- (PI K / 2) <= d0 /\ d0 <= PI K / 2) /\
    (- TWOPI K <= elongm /\ elongm <= TWOPI K) /\
    (- (PI K / 2) <= phim /\ phim <= PI K / 2).
Proof.
  intros Hvalid Hpi Htwopi args.
  destruct (amass_valid_run K h utc lon lat hgt ra dec opt Hvalid)
    as (nepoch & r1 & d1 & aob & zob & hob & dob & rob & refa & refb &
        tanz & am & pa & Htrace & _).
  destruct Hvalid as (_ & (Hlon & Hlat & Hra & Hdec) & _).
  subst args. rewrite Htrace.
  eexists _, _, _, _, _, _, _, _, _, _, _, _, _, _.
  split; [right; left; reflexivity|].
  split; [do 2 right; left; reflexivity|].
  rewrite Htwopi.
  assert (Hc : 0 < PI K / 180) by (apply Qlt_shift_div_l; lra).
  assert (Hhalf : PI K / 2 == 90 * (PI K / 180)) by field.
  assert (Hturn : 2 * PI K == 360 * (PI K / 180)) by field.
  rewrite Hhalf, Hturn.
  repeat split; try nra. field.
Qed.

(** X9 on the sample observation. *)
Lemma angles_reach_library_in_radians_witness :
  amass_valid 0 28.76 6.75 (-16.72) [] /\
  0 < PI trm_constants /\ TWOPI trm_constants == 2 * PI trm_constants /\
  exists r0 d0 pr pd px rv ep0 ep1 pm ri di elongm phim i2o,
    In (Ev (SlaPm r0 d0 pr pd px rv ep0 ep1) pm)
       (trace quiet (sla_amass trm_constants (sirius 6.75))) /\
    In (Ev (SlaI2o ri di 51544 0 elongm phim 2396 0 0
               285 1013.25 0.2 0.55 0.0065) i2o)
       (trace quiet (sla_amass trm_constants (sirius 6.75))) /\
    (0 <= r0 /\ r0 <= TWOPI trm_constants) /\
    r0 == 6.75 / 24 * TWOPI trm_constants /\
    (- (PI trm_constants / 2) <= d0 /\ d0 <= PI trm_constants / 2) /\
    (- TWOPI trm_constants <= elongm /\ elongm <= TWOPI trm_constants) /\
    (- (PI trm_constants / 2) <= phim /\ phim <= PI trm_constants / 2).
Proof.
  assert (Hvalid : amass_valid 0 28.76 6.75 (-16.72) []).
  { unfold amass_valid, angles_valid. cbn [length nth].
    repeat split; try lra; lia. }
  assert (Hpi : 0 < PI trm_constants) by reflexivity.
  assert (Htwopi : TWOPI trm_constants == 2 * PI trm_constants)
    by reflexivity.
  split; [exact Hvalid | split; [exact Hpi | split; [exact Htwopi|]]].
  exact (angles_reach_library_in_radians trm_constants quiet
           51544 0 28.76 2396 6.75 (-16.72) [] Hvalid Hpi Htwopi).
Defined.

(** X10.  The tuple [sla_amass] returns does not depend on the
    observed declination and right ascension that [slaI2o] hands
    back: they are computed and dropped. *)
Theorem observed_dec_ra_unused K h args dob rob :
  run (with_observed_place h dob rob) (sla_amass K args) =
  run h (sla_amass K args).
Proof.
  destruct (amass_raises_or_returns K args) as [[e He] | Hok].
  - rewrite He. reflexivity.
  - destruct (amass_returns_valid K h args (Hok h))
      as (utc & lon & lat & hgt & ra & dec & opt & -> & Hvalid).
    destruct Hvalid as (Hlen & (Hlon & Hlat & Hra & Hdec) & Hwave).
    unfold sla_amass. pass_arity Hlen. pass_checks.
    rewrite chained_comparison_false, orb_false_r.
    rewrite (proj2 (double_leb_false_iff _ _) Hwave).
    cbn [run trace pbind bind ret Monad_py call raise with_observed_place].
    repeat (next_answer h;
      cbn [run trace pbind bind ret Monad_py call raise with_observed_place]).
    reflexivity.
Qed.

(** ** The corrected times *)





(** The time of day handed to [slaRcc] an hour before the MJD
    origin: minus one twenty-fourth of a day. *)
Example negative_mjd_time_of_day :
  (- (1 # 24)) - Double.of_int (Double.to_int (- (1 # 24))) == - (1 # 24).
Proof. reflexivity. Qed.

(** X13.  The terrestrial time of [sla_utc2tdb] agrees with
    [sla_dtt]: when both return on the same [utc], [tt] is [utc] plus
    what [sla_dtt] returned, in days. *)
Theorem tt_agrees_with_sla_dtt K h utc lon lat hgt ra dec opt d r :
  run h (sla_dtt [utc]) = Ok d ->
  run h (sla_utc2tdb K (utc :: lon :: lat :: hgt :: ra :: dec :: opt))
    = Ok r ->
  tt r = utc + d / DAY K.
Proof.
  intros Hdtt Hrun.
  cbn in Hdtt. injection Hdtt as <-.
  assert (Herr : is_err (run h (sla_utc2tdb K
             (utc :: lon :: lat :: hgt :: ra :: dec :: opt))) = false)
    by (rewrite Hrun; reflexivity).
  destruct (utc2tdb_returns_valid K h _ Herr)
    as (utc' & lon' & lat' & hgt' & ra' & dec' & opt' & Heq & Hvalid).
  injection Heq as <- <- <- <- <- <- <-.
  pose proof (trace_answered h
    (sla_utc2tdb K (utc :: lon :: lat :: hgt :: ra :: dec :: opt))) as Hans.
  destruct (utc2tdb_valid_run K h utc lon lat hgt ra dec opt Hvalid)
    as (u & v & dtt & rcc & ph & vh & pb & vb & gmst & eqeqx & pv0 & pv3 &
        rnpb & padd & vadd & nepoch & r1 & d1 & targ & Htrace & Hrun').
  rewrite Htrace in Hans.
  apply Forall_inv_tail, Forall_inv in Hans. cbn [answered_by] in Hans.
  rewrite Hrun' in Hrun. injection Hrun as <-.
  cbn [tt]. rewrite Hans. reflexivity.
Qed.

(** X13 on the sample observation. *)
Lemma tt_agrees_with_sla_dtt_witness :
  exists d r,
    run quiet (sla_dtt [51544]) = Ok d /\
    run quiet (sla_utc2tdb trm_constants (sirius 6.75)) = Ok r /\
    tt r = 51544 + d / DAY trm_constants.
Proof.
  eexists _, _.
  split; [vm_compute; reflexivity|].
  split; [vm_compute; reflexivity|].
  apply (tt_agrees_with_sla_dtt trm_constants quiet
           51544 0 28.76 2396 6.75 (-16.72) []);
    vm_compute; reflexivity.
Defined.

(** X14.  [sla_utc2tdb] has one date for the ephemeris, the sidereal
    time, the equation of the equinoxes and the precession-nutation
    matrix: every call of [slaEpv], [slaGmst], [slaEqeqx] and
    [slaPneqx] it makes is at the [tdb] it returns. *)
Theorem one_date_for_all K h args r :
  run h (sla_utc2tdb K args) = Ok r ->
  Forall (dated (tdb r)) (trace h (sla_utc2tdb K args)).
Proof.
  intros Hrun.
  assert (Herr : is_err (run h (sla_utc2tdb K args)) = false)
    by (rewrite Hrun; reflexivity).
  destruct (utc2tdb_returns_valid K h args Herr)
    as (utc & lon & lat & hgt & ra & dec & opt & -> & Hvalid).
  destruct (utc2tdb_valid_run K h utc lon lat hgt ra dec opt Hvalid)
    as (u & v & dtt & rcc & ph & vh & pb & vb & gmst & eqeqx & pv0 & pv3 &
        rnpb & padd & vadd & nepoch & r1 & d1 & targ & Htrace & Hrun').
  rewrite Hrun' in Hrun. injection Hrun as <-.
  rewrite Htrace. cbn [tdb]. repeat constructor.
Qed.

(** X14 on the sample observation. *)
Lemma one_date_for_all_witness :
  exists r,
    run quiet (sla_utc2tdb trm_constants (sirius 6.75)) = Ok r /\
    Forall (dated (tdb r))
      (trace quiet (sla_utc2tdb trm_constants (sirius 6.75))).
Proof.
  eexists. split; [vm_compute; reflexivity|].
  apply (one_date_for_all trm_constants quiet (sirius 6.75)).
  vm_compute. reflexivity.
Defined.

(** ** The two wrappers side by side *)

(** X15.  Both wrappers move the target with the same call of
    [slaPm]: on the same required arguments and the same proper
    motion, parallax, radial velocity and epoch they get the same
    updated position, which [sla_utc2tdb] hands to [slaDcs2c] and
    [sla_amass] to [slaI2o]. *)
Theorem same_space_motion K h utc lon lat hgt ra dec wave rest :
  utc2tdb_valid lon lat ra dec rest -> 0 < wave ->
  let six := fun opt => utc :: lon :: lat :: hgt :: ra :: dec :: opt in
  exists (pm : extcall (Q * Q)) r1 d1 targ
         (i2o : Q * Q * Q * Q * Q) elongm phim,
    In (Ev pm (r1, d1)) (trace h (sla_utc2tdb K (six rest))) /\
    In (Ev pm (r1, d1)) (trace h (sla_amass K (six (wave :: rest)))) /\
    In (Ev (SlaDcs2c r1 d1) targ) (trace h (sla_utc2tdb K (six rest))) /\
    In (Ev (SlaI2o r1 d1 utc 0 elongm phim hgt 0 0
               285 1013.25 0.2 wave 0.0065) i2o)
       (trace h (sla_amass K (six (wave :: rest)))).
Proof.
  intros Hvalid Hwave six. subst six. cbv beta.
  assert (Hvalid' : amass_valid lon lat ra dec (wave :: rest)).
  { destruct Hvalid as [Hlen Hang].
    repeat split; try apply Hang; [cbn; lia | exact Hwave]. }
  pose proof (trace_answered h
    (sla_utc2tdb K (utc :: lon :: lat :: hgt :: ra :: dec :: rest))) as Ha.
  pose proof (trace_answered h
    (sla_amass K (utc :: lon :: lat :: hgt :: ra :: dec :: wave :: rest)))
    as Hb.
  destruct (utc2tdb_valid_run K h utc lon lat hgt ra dec rest Hvalid)
    as (u & v & dtt & rcc & ph & vh & pb & vb & gmst & eqeqx & pv0 & pv3 &
        rnpb & padd & vadd & nepoch & r1 & d1 & targ & Htrace & _).
  destruct (amass_valid_run K h utc lon lat hgt ra dec (wave :: rest) Hvalid')
    as (nepoch' & r1' & d1' & aob & zob & hob & dob & rob & refa & refb &
        tanz & am & pa & Htrace' & _).
  rewrite Htrace in Ha. rewrite Htrace' in Hb. rewrite Htrace, Htrace'.
  cbn [nth] in *.
  repeat (apply Forall_cons_iff in Ha; destruct Ha as [? Ha]).
  repeat (apply Forall_cons_iff in Hb; destruct Hb as [? Hb]).
  cbn [answered_by] in *.
  assert (Hn : nepoch' = nepoch) by congruence. rewrite Hn in *.
  assert (Hpm : (r1', d1') = (r1, d1)) by congruence.
  injection Hpm as Hr Hd. rewrite Hr, Hd.
  eexists _, r1, d1, targ, _, _, _.
  split; [do 11 right; left; reflexivity|].
  split; [right; left; reflexivity|].
  split; [do 12 right; left; reflexivity|].
  do 2 right. left. reflexivity.
Qed.

(** X15 on the sample observation at the default wavelength. *)
Lemma same_space_motion_witness :
  utc2tdb_valid 0 28.76 6.75 (-16.72) [] /\ 0 < 0.55 /\
  exists (pm : extcall (Q * Q)) r1 d1 targ
         (i2o : Q * Q * Q * Q * Q) elongm phim,
    In (Ev pm (r1, d1))
       (trace quiet (sla_utc2tdb trm_constants (sirius 6.75))) /\
    In (Ev pm (r1, d1))
       (trace quiet (sla_amass trm_constants (sirius 6.75 ++ [0.55]))) /\
    In (Ev (SlaDcs2c r1 d1) targ)
       (trace quiet (sla_utc2tdb trm_constants (sirius 6.75))) /\
    In (Ev (SlaI2o r1 d1 51544 0 elongm phim 2396 0 0
               285 1013.25 0.2 0.55 0.0065) i2o)
       (trace quiet (sla_amass trm_constants (sirius 6.75 ++ [0.55]))).
Proof.
  assert (Hvalid : utc2tdb_valid 0 28.76 6.75 (-16.72) []).
  { unfold utc2tdb_valid, angles_valid. cbn [length].
    repeat split; try lra; lia. }
  assert (Hwave : 0 < 0.55) by lra.
  split; [exact Hvalid | split; [exact Hwave|]].
  exact (same_space_motion trm_constants quiet
           51544 0 28.76 2396 6.75 (-16.72) 0.55 [] Hvalid Hwave).
Defined.

(** X16.  On six arguments the two wrappers accept and reject
    together: they test the same four angles against the same ranges,
    and the default wavelength passes the extra test of [sla_amass]. *)
Theorem wrappers_agree_on_six K h args :
  length args = 6%nat ->
  is_err (run h (sla_utc2tdb K args)) = is_err (run h (sla_amass K args)).
Proof.
  intros Hlen.
  destruct args as [|utc [|lon [|lat [|hgt [|ra [|dec [|]]]]]]];
    try discriminate.
  destruct (is_err (run h (sla_utc2tdb K [utc; lon; lat; hgt; ra; dec])))
    eqn:Hu; symmetry.
  - destruct (is_err (run h (sla_amass K [utc; lon; lat; hgt; ra; dec])))
      eqn:Ha; [reflexivity|].
    apply amass_returns_valid in Ha.
    destruct Ha as (? & ? & ? & ? & ? & ? & ? & Heq & (Hl & Hang & _)).
    injection Heq as <- <- <- <- <- <- <-.
    assert (Hok : is_err (run h (sla_utc2tdb K
                            [utc; lon; lat; hgt; ra; dec])) = false).
    { destruct (utc2tdb_valid_run K h utc lon lat hgt ra dec []) as
        (? & ? & ? & ? & ? & ? & ? & ? & ? & ? & ? & ? & ? & ? & ? & ? & ? &
         ? & ? & _ & Hrun); [split; [cbn; lia | exact Hang]|].
      rewrite Hrun. reflexivity. }
    congruence.
  - apply utc2tdb_returns_valid in Hu.
    destruct Hu as (? & ? & ? & ? & ? & ? & ? & Heq & (Hl & Hang)).
    injection Heq as <- <- <- <- <- <- <-.
    destruct (amass_valid_run K h utc lon lat hgt ra dec []) as
      (? & ? & ? & ? & ? & ? & ? & ? & ? & ? & ? & ? & ? & _ & Hrun);
      [split; [cbn; lia | split; [exact Hang | cbn; lra]]|].
    rewrite Hrun. reflexivity.
Qed.

(** X16 on the six arguments of the sample observation. *)
Lemma wrappers_agree_on_six_witness :
  length (sirius 6.75) = 6%nat /\
  is_err (run quiet (sla_utc2tdb trm_constants (sirius 6.75))) =
  is_err (run quiet (sla_amass trm_constants (sirius 6.75))).
Proof.
  assert (Hlen : length (sirius 6.75) = 6%nat) by reflexivity.
  split; [exact Hlen|].
  exact (wrappers_agree_on_six trm_constants quiet (sirius 6.75) Hlen).
Defined.

(** ** The calendar wrapper *)

(** X17.  [sla_cldj] refuses an integer outside the range of a C
    [int] before it calls the library; on three integers in range it
    calls [slaCldj] once, raises exactly when the status is 1, 2 or 3
    (after the call, unlike the range tests of the two large wrappers)
    and otherwise returns the MJD of the library unchanged, whatever
    other status comes back. *)
Theorem sla_cldj_outcomes (h : handler) (year month day : Z) :
  (fits_int year && fits_int month && fits_int day = false ->
   sla_cldj [year; month; day] = raise OverflowError) /\
  (fits_int year && fits_int month && fits_int day = true ->
   forall mjd status,
     h _ (SlaCldj year month day) = (mjd, status) ->
     trace h (sla_cldj [year; month; day]) =
       [Ev (SlaCldj year month day) (mjd, status)] /\
     (is_err (run h (sla_cldj [year; month; day])) = true <->
      (status = 1 \/ status = 2 \/ status = 3)%Z) /\
     (is_err (run h (sla_cldj [year; month; day])) = false ->
      run h (sla_cldj [year; month; day]) = Ok mjd)).
Proof.
  split.
  - intros Hfit. unfold sla_cldj. rewrite Hfit. reflexivity.
  - intros Hfit mjd status Hans. unfold sla_cldj. rewrite Hfit.
    cbn [negb run trace pbind bind ret Monad_py call raise]. rewrite Hans.
    destruct (Z.eqb_spec status 1); [subst; cbn; intuition (try lia; try discriminate)|].
    destruct (Z.eqb_spec status 2); [subst; cbn; intuition (try lia; try discriminate)|].
    destruct (Z.eqb_spec status 3); [subst; cbn; intuition (try lia; try discriminate)|].
    cbn. intuition (try lia; try discriminate).
Qed.

(** X17 with a year beyond the C [int] and with the date
    [(2000, 1, 1)] answered by the calendar routine. *)
Lemma sla_cldj_outcomes_witness :
  (fits_int 4000000000 && fits_int 1 && fits_int 1 = false /\
   sla_cldj [4000000000; 1; 1]%Z = raise OverflowError) /\
  (fits_int 2000 && fits_int 1 && fits_int 1 = true /\
   with_slaCldj quiet _ (SlaCldj 2000 1 1) = (51544, 0%Z) /\
   run (with_slaCldj quiet) (sla_cldj [2000; 1; 1]%Z) = Ok 51544).
Proof.
  assert (Hbig : fits_int 4000000000 && fits_int 1 && fits_int 1 = false)
    by reflexivity.
  assert (Hfit : fits_int 2000 && fits_int 1 && fits_int 1 = true)
    by reflexivity.
  assert (Hans : with_slaCldj quiet _ (SlaCldj 2000 1 1) = (51544, 0%Z))
    by reflexivity.
  split.
  - split; [exact Hbig|].
    exact (proj1 (sla_cldj_outcomes quiet 4000000000 1 1) Hbig).
  - split; [exact Hfit | split; [exact Hans|]].
    destruct (proj2 (sla_cldj_outcomes (with_slaCldj quiet) 2000 1 1)
                Hfit 51544 0%Z Hans) as (_ & _ & Hok).
    apply Hok. reflexivity.
Defined.
